(** * db_configure_nat: provisioning of a NAT gateway, shallow embedding

    The script [db_configure_nat.py] talks to two outside parties: the
    operator (through [input] and [print]) and the EC2 client (through the
    boto3 calls).  Both are explicit here.  A run threads a [World]:
    the lines the operator will still type, and the chronological trace of
    everything the script did (prompts, prints, sleeps, client calls with
    their answers).  The client is any function from the trace so far and
    the call to an answer, so every deterministic stub is covered.

    Conventions of the model:
    - a response dictionary is taken to be well formed, so that the
      identifier the script looks up in it is there;
    - [input] at the end of the operator's lines raises [EOFError], as in
      Python; each prompt loop reads one line per turn and is therefore
      defined by recursion on the lines;
    - [create_route] calls itself, with no counter of its own; what cuts
      the nesting is the recursion limit of the interpreter.  The number of
      nested calls the limit leaves room for is a parameter of the model
      ([retries]); the call after the last of them fails with
      [RecursionError] inside its [try] block, which the function wraps
      and raises like any other error without "NotFound" in its text;
    - strings are sequences of the characters 0..255. *)

From Stdlib Require Import List String Ascii ZArith Lia Bool Arith DecimalString.
Import ListNotations.
Open Scope string_scope.

(* ================================================================= *)
(** ** Python strings *)

(** Strings are sequences of the characters 0..255 (ASCII and Latin-1). *)

Definition nl : string := String (ascii_of_nat 10) EmptyString.
Definition dq : string := String (ascii_of_nat 34) EmptyString.

(** [needle in s] *)
Fixpoint contains (needle s : string) : bool :=
  String.prefix needle s ||
  match s with
  | EmptyString => false
  | String _ s' => contains needle s'
  end.

(** [str.lower], character by character. *)
Definition lower_char (c : ascii) : ascii :=
  let n := nat_of_ascii c in
  if (((65 <=? n) && (n <=? 90)) ||
      ((192 <=? n) && (n <=? 222) && negb (n =? 215)))%nat
  then ascii_of_nat (n + 32) else c.

Fixpoint lower (s : string) : string :=
  match s with
  | EmptyString => EmptyString
  | String c s' => String (lower_char c) (lower s')
  end.

(** [s * n] *)
Fixpoint str_mul (s : string) (n : nat) : string :=
  match n with
  | 0 => EmptyString
  | S n' => s ++ str_mul s n'
  end.

(** [format] of a value that may be [None]. *)
Definition fmt_opt (o : option string) : string :=
  match o with
  | Some s => s
  | None => "None"
  end.

(** [repr(s)] of a string: single quotes around it, unless it holds a
    single quote and no double quote; backslash, the chosen quote, tab,
    line feed and carriage return are escaped, and the characters that are
    not printable are written in hexadecimal. *)
Definition backslash : ascii := ascii_of_nat 92.
Definition squote : ascii := ascii_of_nat 39.
Definition dquote : ascii := ascii_of_nat 34.

Definition hex_digit (n : nat) : ascii :=
  match String.get n "0123456789abcdef" with
  | Some c => c
  | None => "0"%char
  end.

Definition escaped (c : ascii) : string :=
  String backslash (String c EmptyString).

Definition printable (c : ascii) : bool :=
  let n := nat_of_ascii c in
  negb ((n <? 32) || (n =? 127) || ((128 <=? n) && (n <=? 160)) || (n =? 173))%nat.

Definition repr_char (quote c : ascii) : string :=
  let n := nat_of_ascii c in
  if (Ascii.eqb c backslash || Ascii.eqb c quote)%bool then escaped c
  else if (n =? 9)%nat then escaped "t"
  else if (n =? 10)%nat then escaped "n"
  else if (n =? 13)%nat then escaped "r"
  else if printable c then String c EmptyString
  else String backslash
         (String "x" (String (hex_digit (n / 16))
                        (String (hex_digit (n mod 16)) EmptyString))).

Fixpoint repr_body (quote : ascii) (s : string) : string :=
  match s with
  | EmptyString => EmptyString
  | String c s' => repr_char quote c ++ repr_body quote s'
  end.

Definition py_repr (s : string) : string :=
  let quote :=
    if contains (String squote EmptyString) s
       && negb (contains (String dquote EmptyString) s)
    then dquote else squote in
  String quote (repr_body quote s ++ String quote EmptyString).

(** [str(i)] for a natural number. *)
Definition decimal (n : nat) : string :=
  NilEmpty.string_of_uint (Nat.to_uint n).

Definition is_digit (c : ascii) : bool :=
  let n := nat_of_ascii c in ((48 <=? n) && (n <=? 57))%nat.

Definition digit_val (c : ascii) : Z := Z.of_nat (nat_of_ascii c) - 48.

(* ================================================================= *)
(** ** [int(text)] *)

(** The characters [int] drops at both ends of its argument (in the range
    0..255): tab, line feed, vertical tab, form feed, carriage return,
    space, next line and no-break space.  The separators 28..31, which
    [str.strip] would drop, are kept and make the text invalid. *)
Definition is_space (c : ascii) : bool :=
  let n := nat_of_ascii c in
  (((9 <=? n) && (n <=? 13)) || (n =? 32) || (n =? 133) || (n =? 160))%nat.

Fixpoint lstrip (s : string) : string :=
  match s with
  | EmptyString => EmptyString
  | String c s' => if is_space c then lstrip s' else s
  end.

Fixpoint rstrip (s : string) : string :=
  match s with
  | EmptyString => EmptyString
  | String c s' =>
      match rstrip s' with
      | EmptyString => if is_space c then EmptyString else String c EmptyString
      | t => String c t
      end
  end.

(** Digits, with single underscores allowed between two digits.
    [after_digit] says whether the previous character was a digit. *)
Fixpoint parse_digits (acc : Z) (after_digit : bool) (s : string) : option Z :=
  match s with
  | EmptyString => if after_digit then Some acc else None
  | String c s' =>
      if is_digit c then parse_digits (10 * acc + digit_val c) true s'
      else if Ascii.eqb c "_" && after_digit then parse_digits acc false s'
      else None
  end.

(** The number of digits in a text. *)
Fixpoint count_digits (s : string) : nat :=
  match s with
  | EmptyString => 0
  | String c s' => (if is_digit c then 1 else 0) + count_digits s'
  end.

(** [sys.get_int_max_str_digits()], as the interpreter sets it at start. *)
Definition int_max_str_digits : nat := 4300.

(** [int(s)] in base 10: surrounding white space is dropped, one sign is
    allowed, then come the digits.  [None] stands for [ValueError], which
    is also what a text of more than [int_max_str_digits] digits gets
    (signs and underscores do not count, leading zeros do). *)
Definition py_int (s : string) : option Z :=
  let t := lstrip (rstrip s) in
  if (int_max_str_digits <? count_digits t)%nat then None
  else
    match t with
    | String "+" r => parse_digits 0 false r
    | String "-" r => option_map Z.opp (parse_digits 0 false r)
    | _ => parse_digits 0 false t
    end.

(* ================================================================= *)
(** ** Regular expressions *)

(** The fragment of [re] the script uses.  A pattern is read as the set of
    strings it denotes; the matcher decides membership with derivatives,
    which agrees with a backtracking search for a pattern of this
    fragment. *)
Inductive regex :=
| Void                          (* matches nothing *)
| Eps                           (* the empty string *)
| Chr (c : ascii)               (* one given character *)
| Rng (lo hi : ascii)           (* [lo-hi] *)
| Seq (r1 r2 : regex)
| Alt (r1 r2 : regex).

Definition Opt (r : regex) : regex := Alt r Eps.          (* r? *)

Fixpoint times (n : nat) (r : regex) : regex :=           (* r{n} *)
  match n with
  | 0 => Eps
  | S n' => Seq r (times n' r)
  end.

Fixpoint upto (n : nat) (r : regex) : regex :=            (* r{0,n} *)
  match n with
  | 0 => Eps
  | S n' => Opt (Seq r (upto n' r))
  end.

Definition Rep (lo hi : nat) (r : regex) : regex :=       (* r{lo,hi} *)
  Seq (times lo r) (upto (hi - lo) r).

Definition in_range (lo hi c : ascii) : bool :=
  ((nat_of_ascii lo <=? nat_of_ascii c) && (nat_of_ascii c <=? nat_of_ascii hi))%nat.

Fixpoint nullable (r : regex) : bool :=
  match r with
  | Void => false
  | Eps => true
  | Chr _ => false
  | Rng _ _ => false
  | Seq r1 r2 => nullable r1 && nullable r2
  | Alt r1 r2 => nullable r1 || nullable r2
  end.

Fixpoint deriv (c : ascii) (r : regex) : regex :=
  match r with
  | Void => Void
  | Eps => Void
  | Chr c' => if Ascii.eqb c c' then Eps else Void
  | Rng lo hi => if in_range lo hi c then Eps else Void
  | Seq r1 r2 =>
      if nullable r1 then Alt (Seq (deriv c r1) r2) (deriv c r2)
      else Seq (deriv c r1) r2
  | Alt r1 r2 => Alt (deriv c r1) (deriv c r2)
  end.

(** The whole of [s] matches [r]. *)
Fixpoint fullmatch (r : regex) (s : string) : bool :=
  match s with
  | EmptyString => nullable r
  | String c s' => fullmatch (deriv c r) s'
  end.

(** [re.compile(p + '$').match(s)]: some prefix of [s] matches [p], and
    what is left is nothing or the one newline that ends the string.  A
    leading [^] adds nothing under [match]. *)
Definition re_match_dollar (p : regex) (s : string) : bool :=
  fullmatch (Seq p (Opt (Chr (ascii_of_nat 10)))) s.

Definition re_digit : regex := Rng "0" "9".

(** [([0-9]|[1-2][0-9]|3[0-2])] *)
Definition mask_re : regex :=
  Alt re_digit
    (Alt (Seq (Rng "1" "2") re_digit)
         (Seq (Chr "3") (Rng "0" "2"))).

(** [([0-9]{1,3}\.){3}[0-9]{1,3}(\/([0-9]|[1-2][0-9]|3[0-2]))?] *)
Definition cidr_re : regex :=
  Seq (times 3 (Seq (Rep 1 3 re_digit) (Chr ".")))
   (Seq (Rep 1 3 re_digit)
      (Opt (Seq (Chr "/") mask_re))).

(** [cidr_re.match(s)] of [main] *)
Definition cidr_re_match (s : string) : bool := re_match_dollar cidr_re s.

(** The strings a pattern denotes. *)
Fixpoint lang (r : regex) (s : string) : Prop :=
  match r with
  | Void => False
  | Eps => s = ""
  | Chr c => s = String c ""
  | Rng lo hi => exists c, in_range lo hi c = true /\ s = String c ""
  | Seq r1 r2 => exists s1 s2, s = s1 ++ s2 /\ lang r1 s1 /\ lang r2 s2
  | Alt r1 r2 => lang r1 s \/ lang r2 s
  end.

Fixpoint all_digits (s : string) : bool :=
  match s with
  | EmptyString => true
  | String c s' => is_digit c && all_digits s'
  end.

(** One to three decimal digits. *)
Definition octet (s : string) : Prop :=
  1 <= String.length s <= 3 /\ all_digits s = true.

Definition octet_b (s : string) : bool :=
  ((1 <=? String.length s) && (String.length s <=? 3))%nat && all_digits s.

(** The decimal numeral of a number from 0 to 32 (no leading zero). *)
Definition mask (m : string) : Prop :=
  exists n, n <= 32 /\ m = decimal n.

(** [A.B.C.D] or [A.B.C.D/N], possibly with one newline at the very end. *)
Definition cidr_shape (s : string) : Prop :=
  exists a b c d tail e,
    octet a /\ octet b /\ octet c /\ octet d
    /\ (tail = "" \/ exists m, mask m /\ tail = "/" ++ m)
    /\ (e = "" \/ e = nl)
    /\ s = a ++ "." ++ b ++ "." ++ c ++ "." ++ d ++ tail ++ e.

(** Following the spec's words: the pattern
    [^(\d{1,3}\.){3}\d{1,3}(/\d{1,2})?$], and a mask that reads as a number
    of at most 32. *)
Definition spec_cidr_re : regex :=
  Seq (times 3 (Seq (Rep 1 3 re_digit) (Chr ".")))
   (Seq (Rep 1 3 re_digit)
      (Opt (Seq (Chr "/") (Rep 1 2 re_digit)))).

Fixpoint after_slash (s : string) : option string :=
  match s with
  | EmptyString => None
  | String c s' => if Ascii.eqb c "/" then Some s' else after_slash s'
  end.

Definition spec_cidr_accepts (s : string) : bool :=
  re_match_dollar spec_cidr_re s &&
  match after_slash s with
  | None => true
  | Some m =>
      match py_int m with
      | Some n => (n <=? 32)%Z
      | None => false
      end
  end.

(* ================================================================= *)
(** ** Exceptions, client calls, events *)

(** The exception classes the script names, [PyException] for the plain
    [Exception] it raises itself, [RecursionError] for what the interpreter
    raises when calls nest too deep, and [OtherError] for any other
    subclass of [Exception] (boto3's waiter and parameter errors, for
    example). *)
Inductive exc_class :=
| ClientError | NoRegionError | NoCredentialsError
| ValueError | EOFError | PyException | RecursionError | OtherError.

(** An exception is its class and [str(e)]. *)
Record exc := Exc { exc_cls : exc_class; exc_str : string }.

(** The keyword under which [create_route] passes the gateway. *)
Inductive target_kw := NatGatewayId | GatewayId.

Inductive Call :=
| SessionClient (profile : option string)
| DescribeInstances
| CreateInternetGateway
| AttachInternetGateway (igw vpc : string)
| CreateSubnet (vpc cidr : string)
| AllocateAddress (domain : string)
| CreateNatGateway (subnet alloc : string)
| WaitNatGatewayAvailable (ids : list string)
| CreateRouteTable (vpc : string)
| AssociateRouteTable (rt subnet : string)
| CreateRoute (rt dest : string) (kw : target_kw) (gw : option string).

(** What the script observes of a response dictionary: the identifier its
    [.get(..).get(..)] chain (or its subscript) reaches, and the truth
    value of the dictionary ([if not success]).  Calls whose response the
    script does not look into leave [resp_id] unused. *)
Record PyResp := Resp { resp_id : string; resp_truthy : bool }.

Inductive Answer :=
| Ok (r : PyResp)
| Raises (e : exc).

Inductive Event :=
| EPrompt (s : string)              (* text written by [input(s)] *)
| EPrint (s : string)               (* [print(s)] *)
| ESleep (n : nat)                  (* [time.sleep(n)] *)
| ECall (c : Call) (a : Answer).    (* a client call and its answer *)

Definition Client := list Event -> Call -> Answer.

Record World := mkWorld { stdin : list string; trace : list Event }.

Definition emit (w : World) (evs : list Event) : World :=
  mkWorld (stdin w) (trace w ++ evs).

(* ================================================================= *)
(** ** Control: values and exceptions *)

Inductive Res (A : Type) :=
| Val (a : A)
| Exn (e : exc).
Arguments Val {A} a.
Arguments Exn {A} e.

Definition M (A : Type) := World -> World * Res A.

Definition ret {A} (a : A) : M A := fun w => (w, Val a).

Definition bind {A B} (m : M A) (k : A -> M B) : M B :=
  fun w =>
    match m w with
    | (w', Val a) => k a w'
    | (w', Exn e) => (w', Exn e)
    end.

Definition raise {A} (e : exc) : M A := fun w => (w, Exn e).

(** [try: m except Exception as e: h e] *)
Definition try_except {A} (m : M A) (h : exc -> M A) : M A :=
  fun w =>
    match m w with
    | (w', Exn e) => h e w'
    | r => r
    end.

Notation "x <- m ;; k" := (bind m (fun x => k))
  (at level 61, m at next level, right associativity).
Notation "m ;; k" := (bind m (fun _ => k))
  (at level 61, right associativity).

Definition print (s : string) : M unit :=
  fun w => (emit w [EPrint s], Val tt).

Definition sleep (n : nat) : M unit :=
  fun w => (emit w [ESleep n], Val tt).

(** [input(prompt)]: the prompt is written, then a line is read; at the
    end of the input Python raises [EOFError]. *)
Definition input (prompt : string) : M string :=
  fun w =>
    match stdin w with
    | [] => (emit w [EPrompt prompt], Exn (Exc EOFError "EOF when reading a line"))
    | l :: rest => (mkWorld rest (trace w ++ [EPrompt prompt]), Val l)
    end.

(* ================================================================= *)
(** ** The functions of the script *)

Section Script.

Variable client : Client.

Definition api (c : Call) : M PyResp :=
  fun w =>
    let a := client (trace w) c in
    match a with
    | Ok r => (emit w [ECall c a], Val r)
    | Raises e => (emit w [ECall c a], Exn e)
    end.

Definition bad_mode : exc :=
  Exc PyException
    ("Inappropriate inputs for create_route. Mode must be either "
       ++ dq ++ "nat" ++ dq ++ " or " ++ dq ++ "igw" ++ dq ++ ".").

Definition route_error (destination : string) (gateway : option string)
    (route_table : string) (e : exc) : exc :=
  Exc PyException
    ("Error returned when creating a route to " ++ destination
       ++ ", from " ++ fmt_opt gateway
       ++ " using table " ++ route_table ++ ": " ++ exc_str e ++ nl).

(** The body of the [try] block of [create_route]. *)
Definition create_route_try (route_table destination : string)
    (gateway : option string) (mode : string) : M PyResp :=
  route <- (if lower mode =? "nat" then
              api (CreateRoute route_table destination NatGatewayId gateway)
            else if lower mode =? "igw" then
              api (CreateRoute route_table destination GatewayId gateway)
            else raise bad_mode) ;;
  print ("Route created" ++ nl) ;;
  ret route.

(** What the interpreter raises when calls nest deeper than its recursion
    limit allows. *)
Definition recursion_error : exc :=
  Exc RecursionError "maximum recursion depth exceeded".

(** [create_route] calls itself in both [except] clauses.  [retries] is
    the number of nested calls the recursion limit of the interpreter
    leaves room for below this one (the limit is 1000 frames unless it is
    changed, and a client call needs some of them).  The first attempt is
    always made.  A nested call for which there is no room gets as far as
    its client call, the deepest thing it does: that call raises
    [RecursionError] inside the [try] block before the client is reached,
    the clause for [Exception] finds no "NotFound" in the text, and the
    nested call raises the error of the function, which passes through
    the handlers of the calls around it. *)
Fixpoint create_route (retries : nat) (route_table destination : string)
    (gateway : option string) (mode : string) {struct retries} : M PyResp :=
  try_except
    (create_route_try route_table destination gateway mode)
    (fun e =>
       match exc_cls e with
       | ClientError =>
           if contains "NotFound" (exc_str e) then
             print ("Retrying..." ++ nl) ;;
             sleep 5 ;;
             match retries with
             | 0 => raise (route_error destination gateway route_table
                             recursion_error)
             | S r => create_route r route_table destination gateway "nat"
             end
           else raise (route_error destination gateway route_table e)
       | _ =>
           if contains "NotFound" (exc_str e) then
             print ("Retrying..." ++ nl) ;;
             sleep 5 ;;
             match retries with
             | 0 => raise (route_error destination gateway route_table
                             recursion_error)
             | S r => create_route r route_table destination gateway "nat"
             end
           else raise (route_error destination gateway route_table e)
       end).

(** [try: m except ClientError as e: h e], other exceptions pass. *)
Definition except_ClientError {A} (m : M A) (h : exc -> M A) : M A :=
  try_except m
    (fun e => match exc_cls e with
              | ClientError => h e
              | _ => raise e
              end).

(** [create_client], with its optional profile name.  The session and the permission probe are
    calls on the outside world like the others. *)
Definition create_client (args : list string) : M unit :=
  try_except
    ((match args with
      | [] => api (SessionClient None)
      | profile :: _ => api (SessionClient (Some profile))
      end) ;;
     api DescribeInstances ;;
     ret tt)
    (fun e =>
       match exc_cls e with
       | NoRegionError =>
           raise (Exc PyException
             "Error creating client; please run `aws configure` to set up your environment first.")
       | NoCredentialsError =>
           raise (Exc PyException
             "Error creating client; your AWS credentials were not found. Run `aws configure` to check.")
       | ClientError =>
           raise (Exc PyException
             ("Error creating client; please check your credentials and permissions. Error was: "
                ++ exc_str e))
       | _ => raise e
       end).

(** What [create_subnet] raises.  The source passes the template and
    [format(e)] as two arguments to [Exception], so [str] of it is the
    text of that pair: [repr] of each, in parentheses. *)
Definition subnet_error (e : exc) : exc :=
  Exc PyException
    ("(" ++ py_repr "Error when creating subnet: {}" ++ ", "
         ++ py_repr (exc_str e) ++ ")").

Definition create_subnet (cidr_blk vpc_id : string) : M string :=
  response <- except_ClientError
                (api (CreateSubnet vpc_id cidr_blk))
                (fun e => raise (subnet_error e)) ;;
  let subnet_id := resp_id response in
  print ("Create subnet with subnetID " ++ subnet_id) ;;
  ret subnet_id.

Definition nat_error (subnet alloc : string) (e : exc) : string :=
  "Error returned when creating NAT Gateway Using subnet ID " ++ subnet
    ++ ", Allocation ID: " ++ alloc ++ ": " ++ exc_str e ++ nl.

(** [setup_nat_gateway].  The second [try] catches every [Exception],
    prints, and falls off the end of the function: the result is [None]. *)
Definition setup_nat_gateway (subnet : string) : M (option string) :=
  allocation <- except_ClientError
                  (api (AllocateAddress "vpc"))
                  (fun e => raise (Exc PyException
                     ("Error allocating ip: " ++ exc_str e))) ;;
  try_except
    (nat_gateway <- api (CreateNatGateway subnet (resp_id allocation)) ;;
     let nat_gateway_ids := resp_id nat_gateway in
     print ("Creating NAT gateway " ++ nat_gateway_ids ++ "..." ++ nl) ;;
     api (WaitNatGatewayAvailable [nat_gateway_ids]) ;;
     print ("Created NAT gateway" ++ nl) ;;
     ret (Some nat_gateway_ids))
    (fun e =>
       print (nat_error subnet (resp_id allocation) e) ;;
       ret None).

Definition create_route_table (vpc subnet : string) : M string :=
  except_ClientError
    (route_table <- api (CreateRouteTable vpc) ;;
     let route_table_id := resp_id route_table in
     api (AssociateRouteTable route_table_id subnet) ;;
     ret route_table_id)
    (fun e => raise (Exc PyException
       ("Error returned when creating Route Table: " ++ exc_str e ++ nl))).

Definition create_igw (vpc : string) : M string :=
  except_ClientError
    (response <- api CreateInternetGateway ;;
     let igw := resp_id response in
     api (AttachInternetGateway igw vpc) ;;
     ret igw)
    (fun e => raise (Exc PyException
       ("Could not create IGW. Error received: " ++ exc_str e))).

(* ----------------------------------------------------------------- *)
(** *** The prompt loops of [main]

    Every turn of these loops reads one line, so they are defined by
    recursion on the lines still to come. *)

Definition eof : exc := Exc EOFError "EOF when reading a line".

Definition vpc_prompt : string := "Enter the VPC ID of the Databricks VPC".
Definition cidr_prompt : string :=
  "Enter the CIDR range for the subnet, in 'A.B'C'D/XX' format".
Definition cidr_invalid : string :=
  "CIDR range format is invalid. Please enter a valid CIDR Range.".
Definition int_prompt : string :=
  "Number of routes must be convertible to int. Please enter a number.".

(** [while not vpc: print(..); input(..)] -- the line read in the loop is
    dropped, [vpc] keeps its value. *)
Fixpoint while_not_vpc (vpc : string) (lines : list string)
    (tr : list Event) : World * Res unit :=
  if vpc =? "" then
    let tr' := (tr ++ [EPrint "Please provide a valid VPC ID."; EPrompt vpc_prompt])%list in
    match lines with
    | [] => (mkWorld [] tr', Exn eof)
    | _ :: rest => while_not_vpc vpc rest tr'
    end
  else (mkWorld lines tr, Val tt).

(** [while not cidr_re.match(x): print(msg); x = input(prompt)] *)
Fixpoint while_not_cidr (msg prompt : string) (x : string)
    (lines : list string) (tr : list Event) : World * Res string :=
  if cidr_re_match x then (mkWorld lines tr, Val x)
  else
    let tr' := (tr ++ [EPrint msg; EPrompt prompt])%list in
    match lines with
    | [] => (mkWorld [] tr', Exn eof)
    | l :: rest => while_not_cidr msg prompt l rest tr'
    end.

(** [while success == 0: try: n = int(n); success = 1
                         except ValueError: n = input(..)] *)
Fixpoint while_not_int (num_routes : string) (lines : list string)
    (tr : list Event) : World * Res Z :=
  match py_int num_routes with
  | Some n => (mkWorld lines tr, Val n)
  | None =>
      let tr' := (tr ++ [EPrompt int_prompt])%list in
      match lines with
      | [] => (mkWorld [] tr', Exn eof)
      | l :: rest => while_not_int l rest tr'
      end
  end.

Definition route_prompt (i : nat) : string :=
  "Enter destination for route #" ++ decimal i.

(** [for i in range(num_routes): ...], [count] turns left, [i] the index. *)
Fixpoint route_loop (retries : nat) (route_table : string)
    (nat_gateway : option string) (count i : nat) : M unit :=
  match count with
  | 0 => ret tt
  | S count' =>
      route_dest <- input (route_prompt i) ;;
      route_dest <- (fun w => while_not_cidr (cidr_invalid ++ nl) (route_prompt i)
                                route_dest (stdin w) (trace w)) ;;
      success <- create_route retries route_table route_dest nat_gateway "nat" ;;
      (if negb (resp_truthy success)
       then print ("Warning: Could not create route " ++ route_dest)
       else ret tt) ;;
      route_loop retries route_table nat_gateway count' (S i)
  end.

(** The local variables of [main] when it returns (Python's [main]
    itself returns [None]). *)
Record Locals := mkLocals {
  l_vpc : string;
  l_cidr : string;
  l_igw : string;
  l_subnet_id : string;
  l_nat_gateway : option string;
  l_route_table : string;
  l_num_routes : Z
}.

Definition main (retries : nat) : M Locals :=
  create_client [] ;;
  vpc <- input vpc_prompt ;;
  (fun w => while_not_vpc vpc (stdin w) (trace w)) ;;
  cidr <- input cidr_prompt ;;
  cidr <- (fun w => while_not_cidr cidr_invalid cidr_prompt cidr (stdin w) (trace w)) ;;
  igw <- create_igw vpc ;;
  subnet_id <- create_subnet cidr vpc ;;
  nat_gateway <- setup_nat_gateway subnet_id ;;
  route_table <- create_route_table vpc subnet_id ;;
  success <- create_route retries route_table "0.0.0.0/0" (Some igw) "igw" ;;
  if negb (resp_truthy success) then
    raise (Exc PyException
      "Could not create IGW route. Please check that IGW exists and is attached.")
  else
    num_routes <- input "How many routes need to be created?" ;;
    num_routes <- (fun w => while_not_int num_routes (stdin w) (trace w)) ;;
    route_loop retries route_table nat_gateway (Z.to_nat num_routes) 0 ;;
    ret (mkLocals vpc cidr igw subnet_id nat_gateway route_table num_routes).

End Script.

(* ================================================================= *)
(** ** Observations on traces *)

Definition calls (tr : list Event) : list Call :=
  flat_map (fun ev => match ev with ECall c _ => [c] | _ => [] end) tr.

Definition is_route_call (c : Call) : bool :=
  match c with CreateRoute _ _ _ _ => true | _ => false end.

(** The calls of [create_client] set nothing up. *)
Definition is_provisioning (c : Call) : bool :=
  match c with
  | SessionClient _ | DescribeInstances => false
  | _ => true
  end.

Definition provisioning_calls (tr : list Event) : list Call :=
  filter is_provisioning (calls tr).

Definition route_calls (tr : list Event) : list Call :=
  filter is_route_call (calls tr).

Definition slept (tr : list Event) : nat :=
  list_sum (flat_map (fun ev => match ev with ESleep n => [n] | _ => [] end) tr).

Definition prints (tr : list Event) : list string :=
  flat_map (fun ev => match ev with EPrint s => [s] | _ => [] end) tr.

Definition not_found (e : exc) : bool := contains "NotFound" (exc_str e).

(** The keyword the mode selects, [None] for a mode that is neither. *)
Definition mode_kw (mode : string) : option target_kw :=
  if lower mode =? "nat" then Some NatGatewayId
  else if lower mode =? "igw" then Some GatewayId
  else None.

Definition retry_events : list Event :=
  [EPrint ("Retrying..." ++ nl); ESleep 5].

Definition nat_spellings : list string :=
  ["nat"; "naT"; "nAt"; "nAT"; "Nat"; "NaT"; "NAt"; "NAT"].

Definition igw_spellings : list string :=
  ["igw"; "igW"; "iGw"; "iGW"; "Igw"; "IgW"; "IGw"; "IGW"].




(** What [create_route] makes of the answer that ends the retries. *)
Definition outcome (dest : string) (gw : option string) (rt : string)
    (final : Answer) : Res PyResp :=
  match final with
  | Ok r => Val r
  | Raises e => Exn (route_error dest gw rt e)
  end.

Definition returned {A} (r : Res A) : bool :=
  match r with Val _ => true | _ => false end.

(** The calls of one use of [create_route]: the first under the keyword of
    the mode, then [k] retries under [NatGatewayId]. *)
Definition attempts (rt dest : string) (kw : target_kw) (gw : option string)
    (k : nat) : list Call :=
  CreateRoute rt dest kw gw :: repeat (CreateRoute rt dest NatGatewayId gw) k.

(** The calls of the loop over the additional routes: for each
    destination in turn, all of them valid, the attempts for it. *)
Definition route_attempts (rt : string) (gw : option string)
    (dk : string * nat) : list Call :=
  attempts rt (fst dk) NatGatewayId gw (snd dk).

(* ================================================================= *)
(** ** Invariants of a run *)

(** The events a run has added to the trace of [w]. *)
Definition new_events (w w' : World) : list Event :=
  skipn (List.length (trace w)) (trace w').

(** The errors after which the script goes on: an error of the creation
    of the NAT gateway or of the wait for it (printed, then dropped), and
    an error on a route whose text has "NotFound" in it (retried). *)
Definition survivable (c : Call) (e : exc) : bool :=
  match c with
  | CreateNatGateway _ _ | WaitNatGatewayAvailable _ => true
  | CreateRoute _ _ _ _ => not_found e
  | _ => false
  end.

Definition fatal_event (ev : Event) : bool :=
  match ev with
  | ECall c (Raises e) => negb (survivable c e)
  | _ => false
  end.

(** No call has failed with an error that is not survivable. *)
Definition clean (evs : list Event) : bool :=
  forallb (fun ev => negb (fatal_event ev)) evs.

(** No call comes after the first such failure. *)
Fixpoint fatal_is_last (evs : list Event) : bool :=
  match evs with
  | [] => true
  | ev :: rest =>
      if fatal_event ev
      then match calls rest with [] => true | _ => false end
      else fatal_is_last rest
  end.

(** The place of a call in the sequence of [main]. *)
Definition step (c : Call) : nat :=
  match c with
  | SessionClient _ => 1
  | DescribeInstances => 2
  | CreateInternetGateway => 3
  | AttachInternetGateway _ _ => 4
  | CreateSubnet _ _ => 5
  | AllocateAddress _ => 6
  | CreateNatGateway _ _ => 7
  | WaitNatGatewayAvailable _ => 8
  | CreateRouteTable _ => 9
  | AssociateRouteTable _ _ => 10
  | CreateRoute _ _ _ _ => 11
  end.

(** Each call is of a later step than the one before it ([prev] for the
    first), except that a route may follow a route. *)
Fixpoint in_order (prev : nat) (l : list Call) : bool :=
  match l with
  | [] => true
  | c :: l' =>
      ((prev <? step c) || ((prev =? 11) && (step c =? 11)))%nat
      && in_order (step c) l'
  end.

Fixpoint last_step (prev : nat) (l : list Call) : nat :=
  match l with
  | [] => prev
  | c :: l' => last_step (step c) l'
  end.

(** What [create_client] raises when the session or the probe raises
    [e]. *)
Definition client_error (e : exc) : exc :=
  match exc_cls e with
  | NoRegionError =>
      Exc PyException
        "Error creating client; please run `aws configure` to set up your environment first."
  | NoCredentialsError =>
      Exc PyException
        "Error creating client; your AWS credentials were not found. Run `aws configure` to check."
  | ClientError =>
      Exc PyException
        ("Error creating client; please check your credentials and permissions. Error was: "
           ++ exc_str e)
  | _ => e
  end.

(** How many calls of [l] are of step [s]. *)
Definition count_step (s : nat) (l : list Call) : nat :=
  List.length (filter (fun c => (step c =? s)%nat) l).

(** What [main] has checked of the operator's answers before it hands
    them to the client: a VPC ID is not empty, a CIDR matches the
    pattern. *)
Definition arg_ok (c : Call) : bool :=
  match c with
  | AttachInternetGateway _ vpc => negb (vpc =? "")
  | CreateSubnet vpc cidr => negb (vpc =? "") && cidr_re_match cidr
  | CreateRouteTable vpc => negb (vpc =? "")
  | CreateRoute _ dest _ _ => cidr_re_match dest
  | _ => true
  end.

(** [m] only adds events, and what it adds, with its result, meets [Q]. *)
Definition sat {A} (Q : list Event -> Res A -> Prop) (m : M A) : Prop :=
  forall w, exists evs,
    trace (fst (m w)) = (trace w ++ evs)%list /\ Q evs (snd (m w)).

Definition not_client_error (e : exc) : Prop := exc_cls e <> ClientError.


Definition count_prompt : string := "How many routes need to be created?".

Definition not_count_prompt (ev : Event) : bool :=
  match ev with
  | EPrompt s => negb (s =? count_prompt)
  | _ => true
  end.

(** The operator has not been asked for the number of routes. *)
Definition count_not_asked {A} (evs : list Event) (_ : Res A) : Prop :=
  forallb not_count_prompt evs = true.

(** When there is a result, the question for the number of routes comes
    once the client has accepted the default route, with a response that
    counts as true, and not before. *)
Definition asked_after_default (evs : list Event) (r : Res Locals) : Prop :=
  forall loc, r = Val loc ->
    exists pre kw x post,
      evs = (pre ++
             [ECall (CreateRoute (l_route_table loc) "0.0.0.0/0" kw
                       (Some (l_igw loc))) (Ok x);
              EPrint ("Route created" ++ nl);
              EPrompt count_prompt] ++ post)%list
      /\ resp_truthy x = true
      /\ forallb not_count_prompt pre = true.

(** Every exception [m] raises meets [P]. *)
Definition raises_only {A} (P : exc -> Prop) (m : M A) : Prop :=
  forall w e, snd (m w) = Exn e -> P e.

(** The invariant carried through [main]: the calls added are of steps
    after [p] and up to [q], in order; the arguments are checked ones; a
    failure that is not survivable is the last call and excludes a
    result; a result meets [Post]. *)
Definition run_inv {A} (p q : nat) (Post : A -> Prop)
    (evs : list Event) (r : Res A) : Prop :=
  fatal_is_last evs = true
  /\ (returned r = true -> clean evs = true)
  /\ in_order p (calls evs) = true
  /\ last_step p (calls evs) <= q
  /\ forallb arg_ok (calls evs) = true
  /\ (forall a, r = Val a -> Post a).

(* ================================================================= *)
(** ** Client stubs used in the examples *)

Module Stubs.

Definition id_of (c : Call) : string :=
  match c with
  | CreateInternetGateway => "igw-1"
  | CreateSubnet _ _ => "subnet-1"
  | AllocateAddress _ => "eipalloc-1"
  | CreateNatGateway _ _ => "nat-1"
  | CreateRouteTable _ => "rtb-1"
  | _ => ""
  end.

(** Every call succeeds. *)
Definition happy : Client := fun _ c => Ok (Resp (id_of c) true).

(** The calls selected by [p] raise [e], the others succeed. *)
Definition failing (p : Call -> bool) (e : exc) : Client :=
  fun tr c => if p c then Raises e else happy tr c.

Definition NotFoundErr : exc :=
  Exc ClientError
    "An error occurred (InvalidNatGatewayID.NotFound) when calling the CreateRoute operation: The natGateway ID 'nat-1' does not exist".

Definition InvalidParam : exc :=
  Exc ClientError
    "An error occurred (InvalidParameterValue) when calling the CreateRoute operation: The destination CIDR block is not valid".

(** The first [k] create-route calls raise [NotFoundErr]; every later
    create-route call is answered by [final]; other calls succeed. *)
Definition notfound_times (k : nat) (final : Answer) : Client :=
  fun tr c =>
    if is_route_call c then
      if (List.length (route_calls tr) <? k)%nat then Raises NotFoundErr else final
    else happy tr c.

Definition WaiterTimeout : exc :=
  Exc OtherError "Waiter NatGatewayAvailable failed: Max attempts exceeded".

Definition is_wait (c : Call) : bool :=
  match c with WaitNatGatewayAvailable _ => true | _ => false end.

Definition is_nat_route (c : Call) : bool :=
  match c with CreateRoute _ _ NatGatewayId _ => true | _ => false end.

Definition operator : list string :=
  ["vpc-123"; "10.0.5.0/24"; "2"; "172.16.0.0/16"; "192.168.1.0/24"].

End Stubs.

(* ================================================================= *)
(** * Proofs *)

(** ** Traces and texts *)

Lemma calls_app a b : calls (a ++ b) = (calls a ++ calls b)%list.
Proof. unfold calls. apply flat_map_app. Qed.

Lemma route_calls_app a b :
  route_calls (a ++ b) = (route_calls a ++ route_calls b)%list.
Proof. unfold route_calls. now rewrite calls_app, filter_app. Qed.

Lemma provisioning_calls_app a b :
  provisioning_calls (a ++ b) = (provisioning_calls a ++ provisioning_calls b)%list.
Proof. unfold provisioning_calls. now rewrite calls_app, filter_app. Qed.

Lemma list_sum_app a b : list_sum (a ++ b) = list_sum a + list_sum b.
Proof. induction a; simpl; lia. Qed.

Lemma slept_app a b : slept (a ++ b) = slept a + slept b.
Proof. unfold slept. now rewrite flat_map_app, list_sum_app. Qed.

Lemma prefix_app x b : String.prefix x (x ++ b) = true.
Proof.
  induction x as [|c x IH]; simpl; [now destruct b|].
  destruct (ascii_dec c c) as [_|N]; [assumption|contradiction].
Qed.

Lemma contains_app_r x a s : contains x s = true -> contains x (a ++ s) = true.
Proof.
  induction a as [|c a IH]; simpl; intros H; [assumption|].
  rewrite (IH H). apply orb_true_r.
Qed.

(** A text put into a message can be found in it. *)
Lemma contains_mid x a b : contains x (a ++ x ++ b) = true.
Proof.
  apply contains_app_r.
  pose proof (prefix_app x b) as P.
  destruct (x ++ b); cbn [contains]; rewrite P; reflexivity.
Qed.

(* ================================================================= *)
(** ** The model on examples *)

Example cidr_ok_1 : cidr_re_match "10.0.5.0/24" = true. Proof. reflexivity. Qed.
Example cidr_ok_2 : cidr_re_match "999.999.999.999" = true. Proof. reflexivity. Qed.
Example cidr_ko_1 : cidr_re_match "1.2.3.4/05" = false. Proof. reflexivity. Qed.
Example cidr_ko_2 : cidr_re_match "1.2.3.4/33" = false. Proof. reflexivity. Qed.
Example cidr_ko_3 : cidr_re_match "1.2.3/3" = false. Proof. reflexivity. Qed.
Example cidr_ok_3 : cidr_re_match ("1.2.3.4/32" ++ nl) = true. Proof. reflexivity. Qed.
Example int_1 : py_int " -3 " = Some (-3)%Z. Proof. reflexivity. Qed.
Example int_2 : py_int "1_000" = Some 1000%Z. Proof. reflexivity. Qed.
Example int_3 : py_int "1__0" = None. Proof. reflexivity. Qed.
Example int_4 : py_int "+ 1" = None. Proof. reflexivity. Qed.
Example int_5 : py_int "" = None. Proof. reflexivity. Qed.
Example int_6 : py_int "12_" = None. Proof. reflexivity. Qed.
Example int_7 : py_int "007" = Some 7%Z. Proof. reflexivity. Qed.
Example int_8 : py_int (String (ascii_of_nat 31) "2") = None.
Proof. reflexivity. Qed.
Example int_9 : py_int (String (ascii_of_nat 160) "2") = Some 2%Z.
Proof. reflexivity. Qed.
Example int_10 : py_int (" 2" ++ String (ascii_of_nat 9) "") = Some 2%Z.
Proof. reflexivity. Qed.
Example int_11 : py_int (str_mul "1" 4300) <> None.
Proof. vm_compute. discriminate. Qed.
Example int_12 : py_int (str_mul "1" 4301) = None.
Proof. vm_compute. reflexivity. Qed.
Example int_13 : py_int ("-" ++ str_mul "0_" 4299 ++ "7") = Some (-7)%Z.
Proof. vm_compute. reflexivity. Qed.
Example int_14 : py_int (str_mul "0_" 4300 ++ "7") = None.
Proof. vm_compute. reflexivity. Qed.
Example dec_1 : decimal 0 = "0" /\ decimal 32 = "32". Proof. split; reflexivity. Qed.
Example repr_1 : py_repr "abc" = "'abc'". Proof. reflexivity. Qed.
Example repr_2 : py_repr "it's" = dq ++ "it's" ++ dq. Proof. reflexivity. Qed.
Example repr_3 :
  py_repr ("say " ++ dq ++ "hi" ++ dq) = "'say " ++ dq ++ "hi" ++ dq ++ "'".
Proof. reflexivity. Qed.
Example repr_4 : py_repr ("it's " ++ dq) = "'it\'s " ++ dq ++ "'".
Proof. reflexivity. Qed.
Example repr_5 : py_repr ("a" ++ nl) = "'a\n'". Proof. reflexivity. Qed.
Example repr_6 : py_repr (String (ascii_of_nat 31) "") = "'\x1f'".
Proof. reflexivity. Qed.
Example repr_7 :
  py_repr (String (ascii_of_nat 160) (String (ascii_of_nat 127) (String backslash "")))
  = "'\xa0\x7f\\'".
Proof. reflexivity. Qed.
Example subnet_error_1 :
  exc_str (subnet_error (Exc ClientError "The CIDR '10.0.5.0/24' is invalid.")) =
  "('Error when creating subnet: {}', " ++ dq
    ++ "The CIDR '10.0.5.0/24' is invalid." ++ dq ++ ")".
Proof. reflexivity. Qed.

(** A whole session against a client that accepts everything. *)
Example main_end_to_end :
  let run := main Stubs.happy 3 (mkWorld Stubs.operator []) in
  snd run = Val (mkLocals "vpc-123" "10.0.5.0/24" "igw-1" "subnet-1"
                   (Some "nat-1") "rtb-1" 2%Z)
  /\ calls (trace (fst run)) =
       [SessionClient None;
        DescribeInstances;
        CreateInternetGateway;
        AttachInternetGateway "igw-1" "vpc-123";
        CreateSubnet "vpc-123" "10.0.5.0/24";
        AllocateAddress "vpc";
        CreateNatGateway "subnet-1" "eipalloc-1";
        WaitNatGatewayAvailable ["nat-1"];
        CreateRouteTable "vpc-123";
        AssociateRouteTable "rtb-1" "subnet-1";
        CreateRoute "rtb-1" "0.0.0.0/0" GatewayId (Some "igw-1");
        CreateRoute "rtb-1" "172.16.0.0/16" NatGatewayId (Some "nat-1");
        CreateRoute "rtb-1" "192.168.1.0/24" NatGatewayId (Some "nat-1")]
  /\ stdin (fst run) = [].
Proof. vm_compute. auto. Qed.

(* ================================================================= *)
(** ** [create_route]: one equation for the whole function *)

Lemma emit_emit w a b : emit (emit w a) b = emit w (a ++ b).
Proof. unfold emit; simpl. now rewrite <- app_assoc. Qed.

Lemma emit_nil w : emit w [] = w.
Proof. destruct w; unfold emit; simpl. now rewrite app_nil_r. Qed.

Section CreateRoute.

Variable client : Client.

Lemma create_route_eq retries rt dest gw mode w :
  create_route client retries rt dest gw mode w =
  match mode_kw mode with
  | None => (w, Exn (route_error dest gw rt bad_mode))
  | Some kw =>
      let c := CreateRoute rt dest kw gw in
      match client (trace w) c with
      | Ok r => (emit w [ECall c (Ok r); EPrint ("Route created" ++ nl)], Val r)
      | Raises e =>
          if not_found e then
            let w' := emit w (ECall c (Raises e) :: retry_events) in
            match retries with
            | 0 => (w', Exn (route_error dest gw rt recursion_error))
            | S r => create_route client r rt dest gw "nat" w'
            end
          else (emit w [ECall c (Raises e)], Exn (route_error dest gw rt e))
      end
  end.
Proof.
  unfold mode_kw, not_found, retry_events.
  destruct retries as [|r]; simpl;
    unfold try_except, create_route_try, bind, api, print, sleep, ret, raise;
    (destruct (lower mode =? "nat"); [| destruct (lower mode =? "igw")]);
    simpl;
    repeat match goal with
    | |- context [client ?t ?c] => destruct (client t c) as [?|e] eqn:?; simpl
    | |- context [exc_cls ?e] => destruct (exc_cls e); simpl
    | |- context [contains ?a ?b] => destruct (contains a b); simpl
    end;
    rewrite ?emit_emit; simpl; try reflexivity.
Qed.

(** Whatever happens, [create_route] only adds events, and leaves the
    operator's lines alone. *)
Lemma create_route_emits retries :
  forall rt dest gw mode w,
  exists evs, fst (create_route client retries rt dest gw mode w) = emit w evs.
Proof.
  induction retries as [|n IH]; intros; rewrite create_route_eq;
    destruct (mode_kw mode) as [kw|]; simpl;
    try (exists []; now rewrite emit_nil);
    destruct (client _ _) as [r|e]; simpl; eauto;
    destruct (not_found e); simpl; eauto.
  destruct (IH rt dest gw "nat" (emit w (ECall (CreateRoute rt dest kw gw) (Raises e) :: retry_events)))
    as [evs ->].
  rewrite emit_emit. eauto.
Qed.

(** With a mode that selects a keyword the first thing [create_route]
    does is the client call under that keyword. *)
Lemma create_route_first_call retries rt dest gw mode kw w :
  mode_kw mode = Some kw ->
  exists rest,
    trace (fst (create_route client retries rt dest gw mode w)) =
    (trace w ++
     ECall (CreateRoute rt dest kw gw) (client (trace w) (CreateRoute rt dest kw gw))
       :: rest)%list.
Proof.
  intros Hm. rewrite create_route_eq, Hm. simpl.
  destruct (client _ _) as [r|e] eqn:Ha; simpl; eauto.
  destruct (not_found e); simpl; eauto.
  destruct retries as [|n]; simpl; eauto.
  destruct (create_route_emits n rt dest gw "nat"
              (emit w (ECall (CreateRoute rt dest kw gw) (Raises e) :: retry_events)))
    as [evs ->].
  rewrite emit_emit. simpl. eauto.
Qed.

End CreateRoute.

(* ----------------------------------------------------------------- *)
(** *** The spellings [lower] sends to "nat" and to "igw" *)

Ltac all_chars c :=
  destruct c as [[] [] [] [] [] [] [] []]; vm_compute; intro;
  try discriminate; auto.

Lemma lower_char_n c : lower_char c = "n"%char -> c = "n"%char \/ c = "N"%char.
Proof. all_chars c. Qed.
Lemma lower_char_a c : lower_char c = "a"%char -> c = "a"%char \/ c = "A"%char.
Proof. all_chars c. Qed.
Lemma lower_char_t c : lower_char c = "t"%char -> c = "t"%char \/ c = "T"%char.
Proof. all_chars c. Qed.
Lemma lower_char_i c : lower_char c = "i"%char -> c = "i"%char \/ c = "I"%char.
Proof. all_chars c. Qed.
Lemma lower_char_g c : lower_char c = "g"%char -> c = "g"%char \/ c = "G"%char.
Proof. all_chars c. Qed.
Lemma lower_char_w c : lower_char c = "w"%char -> c = "w"%char \/ c = "W"%char.
Proof. all_chars c. Qed.

Lemma lower_nat_spellings mode : lower mode = "nat" <-> In mode nat_spellings.
Proof.
  split.
  - destruct mode as [|c1 [|c2 [|c3 [|c4 m]]]]; simpl; try discriminate.
    intros H; injection H as H1 H2 H3.
    destruct (lower_char_n _ H1), (lower_char_a _ H2), (lower_char_t _ H3);
      subst; simpl; tauto.
  - intros H. simpl in H.
    repeat (destruct H as [<-|H]; [reflexivity|]). contradiction.
Qed.

Lemma lower_igw_spellings mode : lower mode = "igw" <-> In mode igw_spellings.
Proof.
  split.
  - destruct mode as [|c1 [|c2 [|c3 [|c4 m]]]]; simpl; try discriminate.
    intros H; injection H as H1 H2 H3.
    destruct (lower_char_i _ H1), (lower_char_g _ H2), (lower_char_w _ H3);
      subst; simpl; tauto.
  - intros H. simpl in H.
    repeat (destruct H as [<-|H]; [reflexivity|]). contradiction.
Qed.

Lemma mode_kw_nat mode : In mode nat_spellings -> mode_kw mode = Some NatGatewayId.
Proof.
  intros H. apply lower_nat_spellings in H. unfold mode_kw. now rewrite H.
Qed.

Lemma mode_kw_igw mode : In mode igw_spellings -> mode_kw mode = Some GatewayId.
Proof.
  intros H. apply lower_igw_spellings in H. unfold mode_kw. now rewrite H.
Qed.

Lemma mode_kw_none mode :
  ~ In mode (nat_spellings ++ igw_spellings) -> mode_kw mode = None.
Proof.
  intros H. unfold mode_kw.
  destruct (lower mode =? "nat") eqn:E1.
  - apply String.eqb_eq, lower_nat_spellings in E1.
    exfalso; apply H, in_or_app; auto.
  - destruct (lower mode =? "igw") eqn:E2; [|reflexivity].
    apply String.eqb_eq, lower_igw_spellings in E2.
    exfalso; apply H, in_or_app; auto.
Qed.

(* ================================================================= *)
(** ** Claims about [create_route] *)

(** C10.  A mode that is not a spelling of "nat" or "igw" in some mix of
    cases makes [create_route] raise its error with the world untouched:
    no client call, no output.  Every such spelling ("NAT", "Nat", "IGW",
    ...) is accepted: the call under the keyword it selects is the first
    thing that happens. *)
Theorem create_route_mode_gate (client : Client) retries rt dest gw mode w :
  (~ In mode (nat_spellings ++ igw_spellings) ->
     create_route client retries rt dest gw mode w =
     (w, Exn (route_error dest gw rt bad_mode)))
  /\ (In mode nat_spellings ->
      exists rest,
        trace (fst (create_route client retries rt dest gw mode w)) =
        (trace w ++
         ECall (CreateRoute rt dest NatGatewayId gw)
               (client (trace w) (CreateRoute rt dest NatGatewayId gw)) :: rest)%list)
  /\ (In mode igw_spellings ->
      exists rest,
        trace (fst (create_route client retries rt dest gw mode w)) =
        (trace w ++
         ECall (CreateRoute rt dest GatewayId gw)
               (client (trace w) (CreateRoute rt dest GatewayId gw)) :: rest)%list).
Proof.
  repeat split.
  - intros H. now rewrite create_route_eq, (mode_kw_none _ H).
  - intros H. now apply create_route_first_call, mode_kw_nat.
  - intros H. now apply create_route_first_call, mode_kw_igw.
Qed.

Lemma create_route_mode_gate_witness :
  create_route Stubs.happy 3 "rtb-1" "10.0.0.0/8" (Some "pcx-1") "peering"
    (mkWorld [] []) =
  (mkWorld [] [], Exn (route_error "10.0.0.0/8" (Some "pcx-1") "rtb-1" bad_mode))
  /\ (exists rest,
        trace (fst (create_route Stubs.happy 3 "rtb-1" "10.0.0.0/8" (Some "nat-1")
                      "NAT" (mkWorld [] []))) =
        ([] ++ ECall (CreateRoute "rtb-1" "10.0.0.0/8" NatGatewayId (Some "nat-1"))
                 (Stubs.happy [] (CreateRoute "rtb-1" "10.0.0.0/8" NatGatewayId
                                    (Some "nat-1"))) :: rest)%list)
  /\ (exists rest,
        trace (fst (create_route Stubs.happy 3 "rtb-1" "0.0.0.0/0" (Some "igw-1")
                      "Igw" (mkWorld [] []))) =
        ([] ++ ECall (CreateRoute "rtb-1" "0.0.0.0/0" GatewayId (Some "igw-1"))
                 (Stubs.happy [] (CreateRoute "rtb-1" "0.0.0.0/0" GatewayId
                                    (Some "igw-1"))) :: rest)%list).
Proof.
  split; [|split].
  - apply (proj1 (create_route_mode_gate Stubs.happy 3 "rtb-1" "10.0.0.0/8"
                    (Some "pcx-1") "peering" (mkWorld [] []))).
    simpl. intuition discriminate.
  - apply (proj1 (proj2 (create_route_mode_gate Stubs.happy 3 "rtb-1" "10.0.0.0/8"
                           (Some "nat-1") "NAT" (mkWorld [] [])))).
    simpl. tauto.
  - apply (proj2 (proj2 (create_route_mode_gate Stubs.happy 3 "rtb-1" "0.0.0.0/0"
                           (Some "igw-1") "Igw" (mkWorld [] [])))).
    simpl. tauto.
Defined.

(** C6.  When the client call of a route-creation request raises an error
    whose text has no "NotFound" in it, [create_route] raises at once: the
    world has the one failed call and nothing more, so the client was
    called exactly once, without retry and without delay. *)
Theorem create_route_other_error_no_retry (client : Client)
    retries rt dest gw mode kw w e :
  mode_kw mode = Some kw ->
  client (trace w) (CreateRoute rt dest kw gw) = Raises e ->
  not_found e = false ->
  create_route client retries rt dest gw mode w =
    (emit w [ECall (CreateRoute rt dest kw gw) (Raises e)],
     Exn (route_error dest gw rt e))
  /\ route_calls (trace (fst (create_route client retries rt dest gw mode w))) =
     (route_calls (trace w) ++ [CreateRoute rt dest kw gw])%list
  /\ slept (trace (fst (create_route client retries rt dest gw mode w))) =
     slept (trace w).
Proof.
  intros Hm Ha Hn.
  assert (E : create_route client retries rt dest gw mode w =
              (emit w [ECall (CreateRoute rt dest kw gw) (Raises e)],
               Exn (route_error dest gw rt e))).
  { rewrite create_route_eq, Hm. simpl. now rewrite Ha, Hn. }
  rewrite E. simpl. repeat split.
  - unfold route_calls, calls. now rewrite flat_map_app, filter_app.
  - unfold slept. rewrite flat_map_app. simpl. now rewrite app_nil_r.
Qed.

Lemma create_route_other_error_no_retry_witness :
  route_calls (trace (fst (create_route
     (Stubs.failing is_route_call Stubs.InvalidParam) 7
     "rtb-1" "10.0.0.0/8" (Some "nat-1") "nat" (mkWorld [] [])))) =
  [CreateRoute "rtb-1" "10.0.0.0/8" NatGatewayId (Some "nat-1")].
Proof.
  apply (proj1 (proj2 (create_route_other_error_no_retry
     (Stubs.failing is_route_call Stubs.InvalidParam) 7
     "rtb-1" "10.0.0.0/8" (Some "nat-1") "nat" NatGatewayId (mkWorld [] [])
     Stubs.InvalidParam eq_refl eq_refl eq_refl))).
Defined.

(** C7.  When an attempt raises an error with "NotFound" in its text, the
    script prints, sleeps 5, and the next call it makes passes the same
    table, destination and gateway under the keyword [NatGatewayId],
    whatever keyword the failed attempt used. *)
Theorem create_route_retry_is_nat (client : Client)
    retries rt dest gw mode kw w e :
  mode_kw mode = Some kw ->
  client (trace w) (CreateRoute rt dest kw gw) = Raises e ->
  not_found e = true ->
  exists a rest,
    trace (fst (create_route client (S retries) rt dest gw mode w)) =
    (trace w ++
     [ECall (CreateRoute rt dest kw gw) (Raises e);
      EPrint ("Retrying..." ++ nl);
      ESleep 5;
      ECall (CreateRoute rt dest NatGatewayId gw) a] ++ rest)%list.
Proof.
  intros Hm Ha Hn.
  rewrite create_route_eq, Hm. simpl. rewrite Ha, Hn.
  destruct (create_route_first_call client retries rt dest gw "nat" NatGatewayId
              (emit w (ECall (CreateRoute rt dest kw gw) (Raises e) :: retry_events))
              eq_refl) as [rest ->].
  simpl. rewrite <- app_assoc. simpl. eauto.
Qed.

Lemma create_route_retry_is_nat_witness :
  exists a rest,
    trace (fst (create_route (Stubs.notfound_times 1 (Ok (Resp "" true))) 1
                  "rtb-1" "0.0.0.0/0" (Some "igw-1") "igw" (mkWorld [] []))) =
    ([] ++
     [ECall (CreateRoute "rtb-1" "0.0.0.0/0" GatewayId (Some "igw-1"))
        (Raises Stubs.NotFoundErr);
      EPrint ("Retrying..." ++ nl);
      ESleep 5;
      ECall (CreateRoute "rtb-1" "0.0.0.0/0" NatGatewayId (Some "igw-1")) a] ++ rest)%list.
Proof.
  apply (create_route_retry_is_nat (Stubs.notfound_times 1 (Ok (Resp "" true))) 0
           "rtb-1" "0.0.0.0/0" (Some "igw-1") "igw" GatewayId (mkWorld [] [])
           Stubs.NotFoundErr eq_refl eq_refl eq_refl).
Defined.

(* ----------------------------------------------------------------- *)
(** *** How often [create_route] retries *)

Lemma not_found_NotFoundErr : not_found Stubs.NotFoundErr = true.
Proof. reflexivity. Qed.

Lemma notfound_times_run final rt dest gw :
  (forall e, final = Raises e -> not_found e = false) ->
  forall k j retries mode kw w,
    mode_kw mode = Some kw ->
    List.length (route_calls (trace w)) = j ->
    k <= retries ->
    exists w',
      create_route (Stubs.notfound_times (j + k) final)
        retries rt dest gw mode w = (w', outcome dest gw rt final)
      /\ List.length (route_calls (trace w')) = S (j + k)
      /\ slept (trace w') = slept (trace w) + 5 * k.
Proof.
  intros Hfinal.
  induction k as [|k IH]; intros j retries mode kw w Hm Hj Hk;
    rewrite create_route_eq, Hm; simpl;
    unfold Stubs.notfound_times at 1; simpl; rewrite Hj.
  - replace (j <? j + 0)%nat with false by (symmetry; apply Nat.ltb_ge; lia).
    destruct final as [r|e]; simpl.
    + eexists; split; [reflexivity|]. simpl.
      rewrite route_calls_app, slept_app, length_app. unfold slept. simpl. lia.
    + rewrite (Hfinal e eq_refl).
      eexists; split; [reflexivity|]. simpl.
      rewrite route_calls_app, slept_app, length_app. unfold slept. simpl. lia.
  - replace (j <? j + S k)%nat with true by (symmetry; apply Nat.ltb_lt; lia).
    rewrite not_found_NotFoundErr.
    destruct retries as [|n]; [lia|].
    replace (j + S k) with (S j + k) by lia.
    set (w' := emit w _).
    destruct (IH (S j) n "nat" NatGatewayId w' eq_refl) as (w2 & H1 & H2 & H3).
    + subst w'. simpl. rewrite route_calls_app, length_app. simpl. lia.
    + lia.
    + exists w2. split; [assumption|]. split; [assumption|].
      rewrite H3. subst w'. simpl. rewrite slept_app. unfold slept. simpl. lia.
Qed.

(** A client that goes on answering "NotFound" is called once by every
    nested call there is room for; the script never gives up by itself,
    and what ends the run is the error of the call there was no room
    for. *)
Lemma notfound_forever rt dest gw :
  forall retries k mode kw w,
    mode_kw mode = Some kw ->
    List.length (route_calls (trace w)) + retries < k ->
    exists w',
      create_route (Stubs.notfound_times k (Ok (Resp "" true)))
        retries rt dest gw mode w =
      (w', Exn (route_error dest gw rt recursion_error))
      /\ List.length (route_calls (trace w')) =
         List.length (route_calls (trace w)) + S retries.
Proof.
  induction retries as [|n IH]; intros k mode kw w Hm Hk;
    rewrite create_route_eq, Hm; simpl;
    unfold Stubs.notfound_times at 1; simpl;
    (replace (List.length (route_calls (trace w)) <? k)%nat with true
       by (symmetry; apply Nat.ltb_lt; lia));
    rewrite not_found_NotFoundErr.
  - eexists; split; [reflexivity|]. simpl.
    rewrite route_calls_app, length_app. simpl. lia.
  - set (w' := emit w _).
    assert (L : List.length (route_calls (trace w')) =
                S (List.length (route_calls (trace w)))).
    { subst w'. simpl. rewrite route_calls_app, length_app. simpl. lia. }
    destruct (IH k "nat" NatGatewayId w' eq_refl) as (w2 & H1 & H2); [lia|].
    exists w2. split; [assumption|]. rewrite H2, L. lia.
Qed.

(** Room for two nested calls: three attempts, each answered "NotFound",
    three sleeps, and then the error of the call there was no room for. *)
Example create_route_recursion_limit :
  let run := create_route (Stubs.failing is_route_call Stubs.NotFoundErr) 2
               "rtb-1" "0.0.0.0/0" (Some "igw-1") "igw" (mkWorld [] []) in
  route_calls (trace (fst run)) =
    [CreateRoute "rtb-1" "0.0.0.0/0" GatewayId (Some "igw-1");
     CreateRoute "rtb-1" "0.0.0.0/0" NatGatewayId (Some "igw-1");
     CreateRoute "rtb-1" "0.0.0.0/0" NatGatewayId (Some "igw-1")]
  /\ slept (trace (fst run)) = 15
  /\ snd run = Exn (route_error "0.0.0.0/0" (Some "igw-1") "rtb-1" recursion_error)
  /\ exc_str (route_error "0.0.0.0/0" (Some "igw-1") "rtb-1" recursion_error) =
     "Error returned when creating a route to 0.0.0.0/0, from igw-1 using table rtb-1: maximum recursion depth exceeded"
       ++ nl.
Proof. vm_compute. auto. Qed.






(* ================================================================= *)
(** ** The steps of [main], one by one *)

Lemma bind_val_inv {A B} (m : M A) (k : A -> M B) w w' b :
  bind m k w = (w', Val b) ->
  exists w1 a, m w = (w1, Val a) /\ k a w1 = (w', Val b).
Proof.
  unfold bind. destruct (m w) as [w1 [a|e]]; intros H; try discriminate; eauto.
Qed.

Lemma bind_run {A B} (m : M A) (k : A -> M B) w :
  bind m k w =
  match m w with
  | (w1, Val a) => k a w1
  | (w1, Exn e) => (w1, Exn e)
  end.
Proof. reflexivity. Qed.

(** Case analysis on every client answer and every exception class met
    in [H]. *)
Ltac answers H :=
  repeat match type of H with
  | context [match ?cl ?t ?c with Ok _ => _ | Raises _ => _ end] =>
      destruct (cl t c) as [?r|?e] eqn:?; simpl in H
  | context [match exc_cls ?e with ClientError => _ | _ => _ end] =>
      destruct (exc_cls e); simpl in H
  end.

Ltac answers_goal :=
  repeat (simpl; rewrite <- ?app_assoc; simpl;
          match goal with
          | |- context [match ?cl ?t ?c with Ok _ => _ | Raises _ => _ end] =>
              destruct (cl t c) as [?r|?e] eqn:?
          | |- context [match exc_cls ?e with ClientError => _ | _ => _ end] =>
              destruct (exc_cls e)
          end).

Section Steps.

Variable client : Client.

(** [create_client] sets nothing up and reads nothing. *)
Lemma create_client_quiet args w :
  let run := create_client client args w in
  stdin (fst run) = stdin w
  /\ provisioning_calls (trace (fst run)) = provisioning_calls (trace w).
Proof.
  unfold create_client, try_except, bind, api, ret, raise.
  destruct args as [|profile args]; simpl; answers_goal; simpl;
    rewrite ?provisioning_calls_app; cbn; rewrite ?app_nil_r; auto.
Qed.

Lemma input_val prompt w w' l :
  input prompt w = (w', Val l) ->
  stdin w = l :: stdin w' /\ trace w' = (trace w ++ [EPrompt prompt])%list.
Proof.
  unfold input. destruct (stdin w) as [|x rest] eqn:E; intros H;
    inversion H; subst; simpl; auto.
Qed.

(** Once [vpc] is empty the loop can only end with the end of the input:
    nothing the operator types is looked at. *)
Lemma while_not_vpc_empty lines :
  forall tr, exists tr',
    while_not_vpc "" lines tr = (mkWorld [] tr', Exn eof) /\ calls tr' = calls tr.
Proof.
  induction lines as [|l rest IH]; intros tr; simpl.
  - eexists; split; [reflexivity|]. rewrite calls_app. simpl. now rewrite app_nil_r.
  - destruct (IH (tr ++ [EPrint "Please provide a valid VPC ID."; EPrompt vpc_prompt])%list)
      as (tr' & E & C).
    exists tr'. split; [assumption|]. rewrite C, calls_app. simpl.
    now rewrite app_nil_r.
Qed.

Lemma while_not_vpc_val vpc lines tr w' u :
  while_not_vpc vpc lines tr = (w', Val u) ->
  vpc <> "" /\ w' = mkWorld lines tr.
Proof.
  destruct (vpc =? "") eqn:E.
  - apply String.eqb_eq in E. subst vpc.
    destruct (while_not_vpc_empty lines tr) as (tr' & -> & _). discriminate.
  - destruct lines; simpl; rewrite E; intros H; inversion H; split; auto;
      intros ->; discriminate.
Qed.

Lemma while_not_cidr_val msg prompt lines :
  forall x tr w' y,
    while_not_cidr msg prompt x lines tr = (w', Val y) ->
    cidr_re_match y = true
    /\ exists evs, trace w' = (tr ++ evs)%list /\ calls evs = [].
Proof.
  induction lines as [|l rest IH]; intros x tr w' y; simpl;
    destruct (cidr_re_match x) eqn:E; intros H; try discriminate.
  - inversion H; subst. split; [assumption|]. exists []. now rewrite app_nil_r.
  - inversion H; subst. split; [assumption|]. exists []. now rewrite app_nil_r.
  - destruct (IH _ _ _ _ H) as (Hy & evs & -> & C). split; [assumption|].
    exists ([EPrint msg; EPrompt prompt] ++ evs)%list.
    rewrite <- app_assoc. split; [reflexivity|]. now rewrite calls_app, C.
Qed.

Lemma while_not_int_val lines :
  forall x tr w' n,
    while_not_int x lines tr = (w', Val n) ->
    exists evs, trace w' = (tr ++ evs)%list /\ calls evs = [].
Proof.
  induction lines as [|l rest IH]; intros x tr w' n; simpl;
    destruct (py_int x) eqn:E; intros H; try discriminate.
  - inversion H; subst. exists []. now rewrite app_nil_r.
  - inversion H; subst. exists []. now rewrite app_nil_r.
  - destruct (IH _ _ _ _ H) as (evs & -> & C).
    eexists (_ :: evs). rewrite <- app_assoc. split; [reflexivity|].
    simpl. exact C.
Qed.

(* ----------------------------------------------------------------- *)
(** *** Each provisioning function as a case analysis on the answers *)

Ltac by_answers :=
  answers_goal; unfold emit; simpl; rewrite <- ?app_assoc; simpl; reflexivity.

Lemma create_igw_eq vpc w :
  create_igw client vpc w =
  let c0 := CreateInternetGateway in
  match client (trace w) c0 with
  | Raises e =>
      (emit w [ECall c0 (Raises e)],
       Exn (match exc_cls e with
            | ClientError =>
                Exc PyException ("Could not create IGW. Error received: " ++ exc_str e)
            | _ => e
            end))
  | Ok r0 =>
      let w1 := emit w [ECall c0 (Ok r0)] in
      let c1 := AttachInternetGateway (resp_id r0) vpc in
      match client (trace w1) c1 with
      | Raises e =>
          (emit w1 [ECall c1 (Raises e)],
           Exn (match exc_cls e with
                | ClientError =>
                    Exc PyException ("Could not create IGW. Error received: " ++ exc_str e)
                | _ => e
                end))
      | Ok r1 => (emit w1 [ECall c1 (Ok r1)], Val (resp_id r0))
      end
  end.
Proof.
  unfold create_igw, except_ClientError, try_except, bind, api, ret, raise.
  by_answers.
Qed.

Lemma create_subnet_eq cidr_blk vpc_id w :
  create_subnet client cidr_blk vpc_id w =
  let c0 := CreateSubnet vpc_id cidr_blk in
  match client (trace w) c0 with
  | Raises e =>
      (emit w [ECall c0 (Raises e)],
       Exn (match exc_cls e with
            | ClientError => subnet_error e
            | _ => e
            end))
  | Ok r0 =>
      (emit w [ECall c0 (Ok r0);
               EPrint ("Create subnet with subnetID " ++ resp_id r0)],
       Val (resp_id r0))
  end.
Proof.
  unfold create_subnet, except_ClientError, try_except, bind, api, print, ret, raise.
  by_answers.
Qed.

Lemma setup_nat_gateway_eq subnet w :
  setup_nat_gateway client subnet w =
  let c0 := AllocateAddress "vpc" in
  match client (trace w) c0 with
  | Raises e =>
      (emit w [ECall c0 (Raises e)],
       Exn (match exc_cls e with
            | ClientError => Exc PyException ("Error allocating ip: " ++ exc_str e)
            | _ => e
            end))
  | Ok alloc =>
      let w1 := emit w [ECall c0 (Ok alloc)] in
      let c1 := CreateNatGateway subnet (resp_id alloc) in
      match client (trace w1) c1 with
      | Raises e =>
          (emit w1 [ECall c1 (Raises e);
                    EPrint (nat_error subnet (resp_id alloc) e)], Val None)
      | Ok nat =>
          let w2 := emit w1 [ECall c1 (Ok nat);
                             EPrint ("Creating NAT gateway " ++ resp_id nat
                                       ++ "..." ++ nl)] in
          let c2 := WaitNatGatewayAvailable [resp_id nat] in
          match client (trace w2) c2 with
          | Raises e =>
              (emit w2 [ECall c2 (Raises e);
                        EPrint (nat_error subnet (resp_id alloc) e)], Val None)
          | Ok r2 =>
              (emit w2 [ECall c2 (Ok r2); EPrint ("Created NAT gateway" ++ nl)],
               Val (Some (resp_id nat)))
          end
      end
  end.
Proof.
  unfold setup_nat_gateway, except_ClientError, try_except, bind, api, print,
    ret, raise.
  by_answers.
Qed.

Lemma create_route_table_eq vpc subnet w :
  create_route_table client vpc subnet w =
  let c0 := CreateRouteTable vpc in
  match client (trace w) c0 with
  | Raises e =>
      (emit w [ECall c0 (Raises e)],
       Exn (match exc_cls e with
            | ClientError =>
                Exc PyException
                  ("Error returned when creating Route Table: " ++ exc_str e ++ nl)
            | _ => e
            end))
  | Ok r0 =>
      let w1 := emit w [ECall c0 (Ok r0)] in
      let c1 := AssociateRouteTable (resp_id r0) subnet in
      match client (trace w1) c1 with
      | Raises e =>
          (emit w1 [ECall c1 (Raises e)],
           Exn (match exc_cls e with
                | ClientError =>
                    Exc PyException
                      ("Error returned when creating Route Table: " ++ exc_str e ++ nl)
                | _ => e
                end))
      | Ok r1 => (emit w1 [ECall c1 (Ok r1)], Val (resp_id r0))
      end
  end.
Proof.
  unfold create_route_table, except_ClientError, try_except, bind, api, ret, raise.
  by_answers.
Qed.

End Steps.

(* ================================================================= *)
(** ** The prompt for the VPC ID *)

(** C9, on the code.  The line read inside the loop is not assigned to
    [vpc].  When the first answer is empty, whatever the operator types
    afterwards, and whatever the client answers, [main] never returns and
    sets nothing up: every later line is read and dropped, and the run
    ends with the end of the input. *)
Theorem main_empty_vpc_never_proceeds (client : Client) retries rest :
  let run := main client retries (mkWorld ("" :: rest) []) in
  provisioning_calls (trace (fst run)) = []
  /\ returned (snd run) = false.
Proof.
  intros run. subst run. unfold main.
  rewrite bind_run.
  pose proof (create_client_quiet client [] (mkWorld ("" :: rest) [])) as [Hs Hp].
  destruct (create_client client [] _) as [w1 [[]|e]]; simpl in *; auto.
  rewrite bind_run. unfold input. rewrite Hs.
  rewrite bind_run. simpl.
  destruct (while_not_vpc_empty rest (trace w1 ++ [EPrompt vpc_prompt])%list)
    as (tr' & E & C).
  rewrite E. simpl. split; [|reflexivity].
  unfold provisioning_calls in *. rewrite C, calls_app, filter_app, Hp.
  reflexivity.
Qed.

(** The same on one session: an empty line, then the identifier. *)
Example main_empty_vpc_then_id :
  let run := main Stubs.happy 3
               (mkWorld ["" ; "vpc-123"; "10.0.5.0/24"; "0"] []) in
  snd run = Exn eof
  /\ stdin (fst run) = []
  /\ provisioning_calls (trace (fst run)) = [].
Proof. vm_compute. auto. Qed.

(* ================================================================= *)
(** ** The number of additional routes *)

Section Count.

Variable client : Client.

Lemma while_not_int_first_integer good rest n :
  py_int good = Some n ->
  forall bad tr,
    Forall (fun l => py_int l = None) bad ->
    while_not_int (hd good bad) (tl (bad ++ [good]) ++ rest) tr =
    (mkWorld rest (tr ++ repeat (EPrompt int_prompt) (List.length bad)), Val n).
Proof.
  intros Hgood.
  induction bad as [|b bad IH]; intros tr Hbad.
  - simpl. destruct rest; simpl; rewrite Hgood, app_nil_r; reflexivity.
  - inversion Hbad as [|? ? Hb Hbad']; subst.
    simpl hd. simpl tl. simpl List.length. simpl repeat.
    specialize (IH (tr ++ [EPrompt int_prompt])%list Hbad').
    rewrite <- app_assoc in IH. simpl in IH.
    destruct bad as [|b' bad]; simpl in *; rewrite Hb; exact IH.
Qed.

Lemma route_loop_zero retries rt gw i w :
  route_loop client retries rt gw 0 i w = (w, Val tt).
Proof. reflexivity. Qed.

(** C8, as the code has it.  The operator answers the question with the
    lines [bad ++ [good]], of which only [good] converts with [int];
    [rest] is what is typed afterwards.  The loop takes [good], whatever
    its sign: each line of [bad] costs one reprompt, [good] is accepted
    without one, and [rest] stays unread.  With a count that is zero or
    negative the loop over the routes does nothing ([range] of it is
    empty). *)
Theorem num_routes_first_integer retries rt gw bad good rest tr n :
  Forall (fun l => py_int l = None) bad ->
  py_int good = Some n ->
  while_not_int (hd good bad) (tl (bad ++ [good]) ++ rest) tr =
    (mkWorld rest (tr ++ repeat (EPrompt int_prompt) (List.length bad)), Val n)
  /\ ((n <= 0)%Z ->
      forall w, route_loop client retries rt gw (Z.to_nat n) 0 w = (w, Val tt)).
Proof.
  intros Hbad Hgood. split.
  - now apply while_not_int_first_integer.
  - intros Hn w. replace (Z.to_nat n) with 0 by lia. reflexivity.
Qed.

End Count.

Lemma num_routes_first_integer_witness :
  while_not_int "two" (["2.5"; "-3"] ++ ["10.1.0.0/16"]) [] =
    (mkWorld ["10.1.0.0/16"] ([] ++ repeat (EPrompt int_prompt) 2), Val (-3)%Z)
  /\ (forall w, route_loop Stubs.happy 3 "rtb-1" (Some "nat-1") (Z.to_nat (-3)) 0 w
                = (w, Val tt)).
Proof.
  destruct (num_routes_first_integer Stubs.happy 3 "rtb-1" (Some "nat-1")
              ["two"; "2.5"] "-3" ["10.1.0.0/16"] [] (-3)%Z) as [H1 H2].
  - repeat constructor.
  - reflexivity.
  - split; [exact H1|]. apply H2. lia.
Defined.

(** C8 as stated fails: "-3" is a negative integer, and it is taken as the
    count at once, without a reprompt; the run goes on to its end. *)
Lemma negative_count_accepted :
  let run := main Stubs.happy 3 (mkWorld ["vpc-123"; "10.0.5.0/24"; "-3"] []) in
  py_int "-3" = Some (-3)%Z
  /\ snd run = Val (mkLocals "vpc-123" "10.0.5.0/24" "igw-1" "subnet-1"
                      (Some "nat-1") "rtb-1" (-3)%Z)
  /\ ~ In (EPrompt int_prompt) (trace (fst run))
  /\ ~ (0 <= -3)%Z.
Proof.
  split; [reflexivity|]. split; [vm_compute; reflexivity|]. split; [|lia].
  vm_compute. intros H. repeat (destruct H as [H|H]; [discriminate H|]). exact H.
Qed.

(* ================================================================= *)
(** ** A NAT gateway that fails *)

(** For every client: when the creation of the NAT gateway raises, or the
    creation succeeds and the wait raises (a timeout included), whatever
    the class of the error, [setup_nat_gateway] prints a report and then
    returns [None]; it does not raise.  The report names the subnet ID and
    the allocation ID and ends with the text of the error. *)
Lemma setup_nat_gateway_swallows_failure (client : Client) subnet w alloc e :
  client (trace w) (AllocateAddress "vpc") = Ok alloc ->
  let w1 := emit w [ECall (AllocateAddress "vpc") (Ok alloc)] in
  let create := CreateNatGateway subnet (resp_id alloc) in
  (client (trace w1) create = Raises e
   \/ exists nat,
        client (trace w1) create = Ok nat
        /\ client (trace (emit w1 [ECall create (Ok nat);
                                   EPrint ("Creating NAT gateway " ++ resp_id nat
                                             ++ "..." ++ nl)]))
             (WaitNatGatewayAvailable [resp_id nat]) = Raises e) ->
  let report := nat_error subnet (resp_id alloc) e in
  (exists evs,
     setup_nat_gateway client subnet w = (emit w (evs ++ [EPrint report]), Val None))
  /\ contains subnet report = true
  /\ contains (resp_id alloc) report = true
  /\ contains (exc_str e) report = true.
Proof.
  intros Ha w1 create Hfail report. split.
  - rewrite setup_nat_gateway_eq. cbv zeta. rewrite Ha. fold w1. fold create.
    destruct Hfail as [Hc | (nat & Hc & Hw)]; rewrite Hc.
    + subst w1. rewrite emit_emit. simpl. eexists [_; _]. reflexivity.
    + rewrite Hw. subst w1. rewrite !emit_emit. simpl.
      eexists [_; _; _; _]. reflexivity.
  - subst report. unfold nat_error. repeat split.
    + apply contains_mid.
    + do 3 apply contains_app_r. apply (contains_mid _ "").
    + do 5 apply contains_app_r. apply (contains_mid _ "").
Qed.

(** C2, on the code.  The wait for the gateway "nat-1" times out, and the
    run does not abort: [setup_nat_gateway] prints its report and returns
    [None], the route table is created and associated, the default route
    is created, and [main] returns, with [nat_gateway] left as [None].
    The report that is printed names the subnet and the allocation, not
    the gateway. *)
Lemma nat_wait_timeout_run_goes_on :
  let run := main (Stubs.failing Stubs.is_wait Stubs.WaiterTimeout) 3
               (mkWorld ["vpc-123"; "10.0.5.0/24"; "0"] []) in
  provisioning_calls (trace (fst run)) =
    [CreateInternetGateway;
     AttachInternetGateway "igw-1" "vpc-123";
     CreateSubnet "vpc-123" "10.0.5.0/24";
     AllocateAddress "vpc";
     CreateNatGateway "subnet-1" "eipalloc-1";
     WaitNatGatewayAvailable ["nat-1"];
     CreateRouteTable "vpc-123";
     AssociateRouteTable "rtb-1" "subnet-1";
     CreateRoute "rtb-1" "0.0.0.0/0" GatewayId (Some "igw-1")]
  /\ snd run = Val (mkLocals "vpc-123" "10.0.5.0/24" "igw-1" "subnet-1"
                      None "rtb-1" 0%Z)
  /\ prints (trace (fst run)) =
       ["Create subnet with subnetID subnet-1";
        "Creating NAT gateway nat-1..." ++ nl;
        nat_error "subnet-1" "eipalloc-1" Stubs.WaiterTimeout;
        "Route created" ++ nl]
  /\ contains "nat-1" (nat_error "subnet-1" "eipalloc-1" Stubs.WaiterTimeout) = false.
Proof. vm_compute. auto. Qed.

(* ================================================================= *)
(** ** An additional route that fails *)

(** For every client: a valid destination whose route the client refuses
    with an error that is not "NotFound" ends the loop with that error;
    the turns that were left are not run. *)
Lemma route_loop_error_propagates (client : Client)
    retries rt gw count i w dest rest e :
  stdin w = dest :: rest ->
  cidr_re_match dest = true ->
  client (trace w ++ [EPrompt (route_prompt i)])%list
    (CreateRoute rt dest NatGatewayId gw) = Raises e ->
  not_found e = false ->
  route_loop client retries rt gw (S count) i w =
  (mkWorld rest
     (trace w ++ [EPrompt (route_prompt i);
                  ECall (CreateRoute rt dest NatGatewayId gw) (Raises e)]),
   Exn (route_error dest gw rt e)).
Proof.
  intros Hs Hd Ha Hn. cbn [route_loop].
  rewrite bind_run. unfold input. rewrite Hs.
  rewrite bind_run. cbn [stdin trace].
  destruct rest as [|l rest']; cbn [while_not_cidr]; rewrite Hd;
    rewrite bind_run, create_route_eq;
    change (mode_kw "nat") with (Some NatGatewayId);
    cbv beta iota zeta; cbn [trace]; rewrite Ha, Hn;
    unfold emit; cbn [stdin trace]; rewrite <- app_assoc; reflexivity.
Qed.

(** C3, on the code.  The client refuses the first additional route with
    an error that is not "NotFound".  [create_route] raises, nothing
    around the call in [main] catches it, and the run ends there: no
    warning is printed, the second destination is never read, and no call
    is made for it. *)
Example additional_route_error_aborts :
  let run := main (Stubs.failing Stubs.is_nat_route Stubs.InvalidParam) 3
               (mkWorld Stubs.operator []) in
  snd run = Exn (route_error "172.16.0.0/16" (Some "nat-1") "rtb-1"
                   Stubs.InvalidParam)
  /\ stdin (fst run) = ["192.168.1.0/24"]
  /\ route_calls (trace (fst run)) =
       [CreateRoute "rtb-1" "0.0.0.0/0" GatewayId (Some "igw-1");
        CreateRoute "rtb-1" "172.16.0.0/16" NatGatewayId (Some "nat-1")]
  /\ prints (trace (fst run)) =
       ["Create subnet with subnetID subnet-1";
        "Creating NAT gateway nat-1..." ++ nl;
        "Created NAT gateway" ++ nl;
        "Route created" ++ nl].
Proof. vm_compute. auto. Qed.

(** The warning of [main] is printed only for a response that is false as
    a truth value, which [create_route] returns like any other. *)
Example additional_route_falsy_response_warns :
  let run := main (fun tr c => if Stubs.is_nat_route c then Ok (Resp "" false)
                               else Stubs.happy tr c) 3
               (mkWorld Stubs.operator []) in
  returned (snd run) = true
  /\ prints (trace (fst run)) =
       ["Create subnet with subnetID subnet-1";
        "Creating NAT gateway nat-1..." ++ nl;
        "Created NAT gateway" ++ nl;
        "Route created" ++ nl;
        "Route created" ++ nl;
        "Warning: Could not create route 172.16.0.0/16";
        "Route created" ++ nl;
        "Warning: Could not create route 192.168.1.0/24"].
Proof. vm_compute. auto. Qed.

(* ================================================================= *)
(** ** The order of the calls in a run of [main] *)

Lemma calls_emit w evs : calls (trace (emit w evs)) = (calls (trace w) ++ calls evs)%list.
Proof. simpl. apply calls_app. Qed.

Lemma provisioning_of_calls tr tr' l :
  calls tr' = (calls tr ++ l)%list ->
  provisioning_calls tr' = (provisioning_calls tr ++ filter is_provisioning l)%list.
Proof. unfold provisioning_calls. intros ->. apply filter_app. Qed.

Section Order.

Variable client : Client.

Lemma create_route_calls rt dest gw :
  forall retries mode kw w w' r,
    mode_kw mode = Some kw ->
    create_route client retries rt dest gw mode w = (w', r) ->
    exists k,
      k <= retries
      /\ calls (trace w') = (calls (trace w) ++ attempts rt dest kw gw k)%list.
Proof.
  induction retries as [|n IH]; intros mode kw w w' r Hm H;
    rewrite create_route_eq, Hm in H; simpl in H;
    destruct (client (trace w) (CreateRoute rt dest kw gw)) as [a|e];
    try (inversion H; subst; exists 0; split; [lia|];
         rewrite calls_emit; reflexivity);
    destruct (not_found e);
    try (inversion H; subst; exists 0; split; [lia|];
         rewrite calls_emit; reflexivity).
  apply (IH "nat" NatGatewayId) in H; [|reflexivity].
  destruct H as (k & Hk & ->). exists (S k). split; [lia|].
  rewrite calls_emit, <- app_assoc. reflexivity.
Qed.

Lemma create_igw_calls vpc w w' igw :
  create_igw client vpc w = (w', Val igw) ->
  calls (trace w') =
  (calls (trace w) ++ [CreateInternetGateway; AttachInternetGateway igw vpc])%list.
Proof.
  rewrite create_igw_eq. cbv zeta. intros H. answers H;
    inversion H; subst. rewrite emit_emit, calls_emit. reflexivity.
Qed.

Lemma create_subnet_calls cidr vpc w w' subnet :
  create_subnet client cidr vpc w = (w', Val subnet) ->
  calls (trace w') = (calls (trace w) ++ [CreateSubnet vpc cidr])%list.
Proof.
  rewrite create_subnet_eq. cbv zeta. intros H. answers H;
    inversion H; subst. rewrite calls_emit. reflexivity.
Qed.

Lemma setup_nat_gateway_calls subnet w w' ng :
  setup_nat_gateway client subnet w = (w', Val ng) ->
  exists alloc waits,
    calls (trace w') =
      (calls (trace w) ++
       AllocateAddress "vpc" :: CreateNatGateway subnet alloc :: waits)%list
    /\ (forall nat, ng = Some nat -> waits = [WaitNatGatewayAvailable [nat]])
    /\ (waits = [] \/ exists id, waits = [WaitNatGatewayAvailable [id]]).
Proof.
  rewrite setup_nat_gateway_eq. cbv zeta. intros H. answers H;
    inversion H; subst; rewrite ?emit_emit, calls_emit;
    do 2 eexists; (split; [reflexivity|]); split;
    try (intros nat Hn; discriminate Hn);
    try (intros nat Hn; injection Hn as <-; reflexivity);
    try (left; reflexivity);
    try (right; eexists; reflexivity).
Qed.

Lemma create_route_table_calls vpc subnet w w' rt :
  create_route_table client vpc subnet w = (w', Val rt) ->
  calls (trace w') =
  (calls (trace w) ++ [CreateRouteTable vpc; AssociateRouteTable rt subnet])%list.
Proof.
  rewrite create_route_table_eq. cbv zeta. intros H. answers H;
    inversion H; subst. rewrite emit_emit, calls_emit. reflexivity.
Qed.

Lemma route_loop_calls retries rt gw :
  forall count i w w' u,
    route_loop client retries rt gw count i w = (w', Val u) ->
    exists routes,
      List.length routes = count
      /\ Forall (fun dk => cidr_re_match (fst dk) = true) routes
      /\ calls (trace w') =
         (calls (trace w) ++ flat_map (route_attempts rt gw) routes)%list.
Proof.
  induction count as [|n IH]; intros i w w' u H.
  - inversion H; subst. exists []. simpl. now rewrite app_nil_r.
  - simpl in H.
    apply bind_val_inv in H. destruct H as (w1 & d0 & H0 & H).
    apply bind_val_inv in H. destruct H as (w2 & d & H1 & H).
    apply bind_val_inv in H. destruct H as (w3 & ok & H2 & H).
    apply bind_val_inv in H. destruct H as (w4 & [] & H3 & H).
    apply input_val in H0. destruct H0 as [_ T1].
    apply while_not_cidr_val in H1. destruct H1 as (Hd & evs & T2 & C2).
    apply (create_route_calls rt d gw retries "nat" NatGatewayId) in H2;
      [|reflexivity].
    destruct H2 as (k & _ & C3).
    assert (C4 : calls (trace w4) = calls (trace w3)).
    { destruct (negb (resp_truthy ok)); inversion H3; subst;
        [rewrite calls_emit; simpl; apply app_nil_r | reflexivity]. }
    apply IH in H. destruct H as (routes & L & F & C5).
    exists ((d, k) :: routes). split; [simpl; now rewrite L|].
    split; [constructor; assumption|].
    rewrite C5, C4, C3, T2, calls_app, C2, app_nil_r, T1, calls_app.
    simpl. rewrite app_nil_r, <- app_assoc. reflexivity.
Qed.

Lemma filter_all {A} (f : A -> bool) l :
  Forall (fun x => f x = true) l -> filter f l = l.
Proof.
  induction 1 as [|x l Hx _ IH]; simpl; [reflexivity|]. now rewrite Hx, IH.
Qed.

Lemma attempts_all_provisioning rt dest kw gw k :
  Forall (fun c => is_provisioning c = true) (attempts rt dest kw gw k).
Proof.
  unfold attempts. constructor; [reflexivity|].
  induction k; simpl; constructor; auto.
Qed.

Lemma route_attempts_all_provisioning rt gw routes :
  Forall (fun c => is_provisioning c = true) (flat_map (route_attempts rt gw) routes).
Proof.
  induction routes as [|dk routes IH]; cbn [flat_map]; [constructor|].
  apply Forall_app. split; [apply attempts_all_provisioning | assumption].
Qed.

(** C4.  In every run in which [main] returns, the calls that set
    resources up are, in this order: the internet gateway created and
    attached, the subnet created, the address allocated, the NAT gateway
    created and waited for, the route table created and associated, the
    attempts for the default route (first "0.0.0.0/0" to the internet
    gateway, then the retries if any), and for each additional destination
    in turn, all valid, the attempts for its route to the NAT gateway.
    The wait is there, for the gateway that the routes then use, whenever
    [main] got a NAT gateway. *)
Theorem main_call_order retries w w' loc :
  main client retries w = (w', Val loc) ->
  exists alloc waits k routes,
    provisioning_calls (trace w') =
      (provisioning_calls (trace w) ++
       [CreateInternetGateway;
        AttachInternetGateway (l_igw loc) (l_vpc loc);
        CreateSubnet (l_vpc loc) (l_cidr loc);
        AllocateAddress "vpc";
        CreateNatGateway (l_subnet_id loc) alloc] ++
       waits ++
       [CreateRouteTable (l_vpc loc);
        AssociateRouteTable (l_route_table loc) (l_subnet_id loc)] ++
       attempts (l_route_table loc) "0.0.0.0/0" GatewayId (Some (l_igw loc)) k ++
       flat_map (route_attempts (l_route_table loc) (l_nat_gateway loc)) routes)%list
    /\ (forall nat, l_nat_gateway loc = Some nat ->
                    waits = [WaitNatGatewayAvailable [nat]])
    /\ (waits = [] \/ exists id, waits = [WaitNatGatewayAvailable [id]])
    /\ List.length routes = Z.to_nat (l_num_routes loc)
    /\ Forall (fun dk => cidr_re_match (fst dk) = true) routes.
Proof.
  unfold main. intros H.
  apply bind_val_inv in H. destruct H as (w1 & [] & Hc & H).
  apply bind_val_inv in H. destruct H as (w2 & vpc & Hi1 & H).
  apply bind_val_inv in H. destruct H as (w3 & [] & Hv & H).
  apply bind_val_inv in H. destruct H as (w4 & cidr0 & Hi2 & H).
  apply bind_val_inv in H. destruct H as (w5 & cidr & Hcidr & H).
  apply bind_val_inv in H. destruct H as (w6 & igw & Higw & H).
  apply bind_val_inv in H. destruct H as (w7 & subnet & Hsub & H).
  apply bind_val_inv in H. destruct H as (w8 & ng & Hnat & H).
  apply bind_val_inv in H. destruct H as (w9 & rt & Hrt & H).
  apply bind_val_inv in H. destruct H as (w10 & ok & Hdef & H).
  destruct (negb (resp_truthy ok)); [discriminate H|].
  apply bind_val_inv in H. destruct H as (w11 & n0 & Hi3 & H).
  apply bind_val_inv in H. destruct H as (w12 & n & Hn & H).
  apply bind_val_inv in H. destruct H as (w13 & [] & Hloop & H).
  inversion H; subst w' loc; clear H. simpl.
  pose proof (create_client_quiet client [] w) as [_ P1]. rewrite Hc in P1. simpl in P1.
  apply input_val in Hi1. destruct Hi1 as [_ T2].
  apply while_not_vpc_val in Hv. destruct Hv as [_ ->].
  apply input_val in Hi2. destruct Hi2 as [_ T4]. simpl in T4.
  apply while_not_cidr_val in Hcidr. destruct Hcidr as (_ & evs5 & T5 & C5).
  apply create_igw_calls in Higw.
  apply create_subnet_calls in Hsub.
  apply setup_nat_gateway_calls in Hnat.
  destruct Hnat as (alloc & waits & Cnat & Wsome & Wshape).
  apply create_route_table_calls in Hrt.
  apply (create_route_calls rt "0.0.0.0/0" (Some igw) retries "igw" GatewayId)
    in Hdef; [|reflexivity].
  destruct Hdef as (k & _ & Cdef).
  apply input_val in Hi3. destruct Hi3 as [_ T11].
  apply while_not_int_val in Hn. destruct Hn as (evs12 & T12 & C12).
  apply route_loop_calls in Hloop. destruct Hloop as (routes & L & F & Cloop).
  exists alloc, waits, k, routes.
  split; [|repeat split; assumption].
  assert (C : calls (trace w13) =
    (calls (trace w1) ++
     [CreateInternetGateway; AttachInternetGateway igw vpc;
      CreateSubnet vpc cidr; AllocateAddress "vpc";
      CreateNatGateway subnet alloc] ++
     waits ++
     [CreateRouteTable vpc; AssociateRouteTable rt subnet] ++
     attempts rt "0.0.0.0/0" GatewayId (Some igw) k ++
     flat_map (route_attempts rt ng) routes)%list).
  { rewrite Cloop, T12, calls_app, C12, app_nil_r, T11, calls_app. simpl calls at 2.
    rewrite app_nil_r, Cdef, Hrt, Cnat, Hsub, Higw, T5, calls_app, C5, app_nil_r.
    rewrite T4, calls_app. simpl calls at 2. rewrite app_nil_r, T2, calls_app.
    simpl calls at 2. rewrite app_nil_r.
    rewrite <- !app_assoc. simpl. reflexivity. }
  rewrite (provisioning_of_calls _ _ _ C), P1. f_equal.
  apply filter_all.
  do 5 (constructor; [reflexivity|]).
  apply Forall_app; split;
    [destruct Wshape as [->|(id & ->)]; repeat constructor|].
  do 2 (constructor; [reflexivity|]).
  apply (proj2 (Forall_app _ (attempts rt "0.0.0.0/0" GatewayId (Some igw) k) _)).
  split; [apply attempts_all_provisioning | apply route_attempts_all_provisioning].
Qed.

End Order.

Lemma main_call_order_witness :
  exists alloc waits k routes,
    provisioning_calls
      (trace (fst (main Stubs.happy 3 (mkWorld Stubs.operator [])))) =
      (provisioning_calls [] ++
       [CreateInternetGateway;
        AttachInternetGateway "igw-1" "vpc-123";
        CreateSubnet "vpc-123" "10.0.5.0/24";
        AllocateAddress "vpc";
        CreateNatGateway "subnet-1" alloc] ++
       waits ++
       [CreateRouteTable "vpc-123";
        AssociateRouteTable "rtb-1" "subnet-1"] ++
       attempts "rtb-1" "0.0.0.0/0" GatewayId (Some "igw-1") k ++
       flat_map (route_attempts "rtb-1" (Some "nat-1")) routes)%list
    /\ (forall nat, Some "nat-1" = Some nat ->
                    waits = [WaitNatGatewayAvailable [nat]])
    /\ (waits = [] \/ exists id, waits = [WaitNatGatewayAvailable [id]])
    /\ List.length routes = Z.to_nat 2
    /\ Forall (fun dk => cidr_re_match (fst dk) = true) routes.
Proof.
  apply (main_call_order Stubs.happy 3 (mkWorld Stubs.operator [])
           (fst (main Stubs.happy 3 (mkWorld Stubs.operator [])))
           (mkLocals "vpc-123" "10.0.5.0/24" "igw-1" "subnet-1"
              (Some "nat-1") "rtb-1" 2%Z)).
  vm_compute. reflexivity.
Defined.

(* ================================================================= *)
(** ** What the CIDR pattern accepts *)

Lemma sapp_nil_r (s : string) : s ++ "" = s.
Proof. induction s; simpl; congruence. Qed.

Lemma sapp_assoc (a b c : string) : (a ++ b) ++ c = a ++ (b ++ c).
Proof. induction a; simpl; congruence. Qed.

Lemma sapp_eq_nil (a b : string) : "" = a ++ b -> a = "" /\ b = "".
Proof. destruct a; simpl; [auto|discriminate]. Qed.

Lemma nullable_lang r : nullable r = true <-> lang r "".
Proof.
  induction r as [| |c|lo hi|r1 IH1 r2 IH2|r1 IH1 r2 IH2]; simpl.
  - split; [discriminate|contradiction].
  - split; auto.
  - split; discriminate.
  - split; [discriminate|intros (c & _ & H); discriminate H].
  - rewrite andb_true_iff, IH1, IH2. split.
    + intros [H1 H2]. exists "", "". auto.
    + intros (s1 & s2 & E & H1 & H2).
      apply sapp_eq_nil in E. destruct E; subst. auto.
  - rewrite orb_true_iff, IH1, IH2. tauto.
Qed.

Lemma deriv_lang r : forall c s, lang (deriv c r) s <-> lang r (String c s).
Proof.
  induction r as [| |c0|lo hi|r1 IH1 r2 IH2|r1 IH1 r2 IH2]; intros c s; simpl.
  - tauto.
  - split; [contradiction|discriminate].
  - destruct (Ascii.eqb c c0) eqn:E; simpl.
    + apply Ascii.eqb_eq in E. subst. split; intros H; [now subst|now injection H].
    + split; [contradiction|]. intros H. injection H as -> _.
      rewrite Ascii.eqb_refl in E. discriminate.
  - destruct (in_range lo hi c) eqn:E; simpl.
    + split; [intros ->; eauto|]. intros (c' & _ & H). now injection H.
    + split; [contradiction|]. intros (c' & R & H). injection H as -> _.
      congruence.
  - destruct (nullable r1) eqn:N; simpl.
    + split.
      * intros [(s1 & s2 & E & H1 & H2)|H].
        -- exists (String c s1), s2. subst. split; [reflexivity|].
           split; [now apply IH1|assumption].
        -- exists "", (String c s). split; [reflexivity|].
           split; [now apply nullable_lang|now apply IH2].
      * intros (s1 & s2 & E & H1 & H2). destruct s1 as [|a s1]; simpl in E.
        -- subst s2. right. now apply IH2.
        -- injection E as -> ->. left. exists s1, s2.
           split; [reflexivity|]. split; [now apply IH1|assumption].
    + split.
      * intros (s1 & s2 & E & H1 & H2).
        exists (String c s1), s2. subst. split; [reflexivity|].
        split; [now apply IH1|assumption].
      * intros (s1 & s2 & E & H1 & H2). destruct s1 as [|a s1]; simpl in E.
        -- apply nullable_lang in H1. congruence.
        -- injection E as -> ->. exists s1, s2.
           split; [reflexivity|]. split; [now apply IH1|assumption].
  - rewrite IH1, IH2. tauto.
Qed.

(** The matcher decides membership. *)
Lemma fullmatch_lang s : forall r, fullmatch r s = true <-> lang r s.
Proof.
  induction s as [|c s IH]; intros r; simpl.
  - apply nullable_lang.
  - rewrite IH. apply deriv_lang.
Qed.

Ltac break :=
  repeat match goal with
  | H : exists _, _ |- _ => destruct H
  | H : _ /\ _ |- _ => destruct H
  | H : _ \/ _ |- _ => destruct H
  | H : False |- _ => contradiction
  end; subst.

Lemma in_range_digit c : in_range "0" "9" c = is_digit c.
Proof. reflexivity. Qed.

Lemma lang_octet x : lang (Rep 1 3 re_digit) x <-> octet x.
Proof.
  unfold octet. split.
  - intros H. cbn in H. break; cbn;
      repeat match goal with
             | H : in_range "0" "9" _ = true |- _ =>
                 rewrite in_range_digit in H; rewrite H; clear H
             end;
      (split; [lia|reflexivity]).
  - intros [L D].
    destruct x as [|c1 [|c2 [|c3 [|c4 x]]]]; cbn in L; try lia;
      cbn in D;
      repeat (apply andb_true_iff in D; destruct D as [? D]);
      apply fullmatch_lang; cbn;
      repeat match goal with
             | H : is_digit ?c = true |- _ =>
                 rewrite (in_range_digit c), H; clear H; cbn
             end;
      reflexivity.
Qed.

Ltac range_chars c :=
  destruct c as [[] [] [] [] [] [] [] []]; intros H; vm_compute in H;
  try discriminate H; simpl; tauto.

Lemma range_0_9 c :
  in_range "0" "9" c = true ->
  In c ["0"; "1"; "2"; "3"; "4"; "5"; "6"; "7"; "8"; "9"]%char.
Proof. range_chars c. Qed.

Lemma range_1_2 c : in_range "1" "2" c = true -> In c ["1"; "2"]%char.
Proof. range_chars c. Qed.

Lemma range_0_2 c : in_range "0" "2" c = true -> In c ["0"; "1"; "2"]%char.
Proof. range_chars c. Qed.

(** Finds the number whose numeral the goal shows, from [n] upwards. *)
Ltac find_numeral n fuel :=
  match fuel with
  | 0 => fail
  | S ?f => first [ exists n; split; [lia | reflexivity] | find_numeral (S n) f ]
  end.

Lemma lang_mask m : lang mask_re m <-> mask m.
Proof.
  unfold mask. split.
  - intros H. cbn in H. break;
      repeat match goal with
             | H : in_range "0" "9" _ = true |- _ => apply range_0_9 in H
             | H : in_range "1" "2" _ = true |- _ => apply range_1_2 in H
             | H : in_range "0" "2" _ = true |- _ => apply range_0_2 in H
             end;
      repeat match goal with
             | H : In _ _ |- _ => simpl in H; decompose [or] H; clear H
             end;
      subst; try contradiction; find_numeral 0 33.
  - intros (n & Hn & ->).
    do 33 (destruct n as [|n]; [apply fullmatch_lang; reflexivity|]).
    lia.
Qed.

Lemma lang_octet_dot y :
  lang (Seq (Rep 1 3 re_digit) (Chr ".")) y <-> exists a, octet a /\ y = a ++ ".".
Proof.
  split.
  - intros (s1 & s2 & -> & H1 & H2). apply lang_octet in H1.
    cbn in H2. subst. eauto.
  - intros (a & Ha & ->). exists a, ".". split; [reflexivity|].
    split; [now apply lang_octet|reflexivity].
Qed.

Lemma lang_three_octets p :
  lang (times 3 (Seq (Rep 1 3 re_digit) (Chr "."))) p <->
  exists a b c, octet a /\ octet b /\ octet c
                /\ p = a ++ "." ++ b ++ "." ++ c ++ ".".
Proof.
  split.
  - intros (s1 & t1 & -> & H1 & s2 & t2 & -> & H2 & s3 & t3 & -> & H3 & H4).
    apply lang_octet_dot in H1, H2, H3. cbn in H4. subst t3.
    destruct H1 as (a & Ha & ->), H2 as (b & Hb & ->), H3 as (c & Hc & ->).
    exists a, b, c. repeat (split; [assumption|]).
    now rewrite sapp_nil_r, !sapp_assoc.
  - intros (a & b & c & Ha & Hb & Hc & ->).
    exists (a ++ "."), (b ++ "." ++ c ++ ".").
    split; [now rewrite sapp_assoc|]. split; [apply lang_octet_dot; eauto|].
    exists (b ++ "."), (c ++ ".").
    split; [now rewrite sapp_assoc|]. split; [apply lang_octet_dot; eauto|].
    exists (c ++ "."), "".
    split; [now rewrite sapp_nil_r|]. split; [apply lang_octet_dot; eauto|].
    reflexivity.
Qed.

Lemma lang_tail t :
  lang (Opt (Seq (Chr "/") mask_re)) t <->
  (t = "" \/ exists m, mask m /\ t = "/" ++ m).
Proof.
  split.
  - intros [(s1 & s2 & -> & H1 & H2)|H].
    + apply lang_mask in H2. cbn in H1. subst. right. eauto.
    + cbn in H. auto.
  - intros [->|(m & Hm & ->)].
    + right. reflexivity.
    + left. exists "/", m. split; [reflexivity|].
      split; [reflexivity|now apply lang_mask].
Qed.

(** C5, as the code has it.  The pattern of [main] accepts exactly the
    strings [A.B.C.D] and [A.B.C.D/N] where A, B, C and D are one to three
    decimal digits each (any value up to 999) and N is a number from 0 to
    32 written without a leading zero; one newline at the very end of the
    string is let through by [$]. *)
Theorem cidr_re_match_shape s : cidr_re_match s = true <-> cidr_shape s.
Proof.
  unfold cidr_re_match, re_match_dollar, cidr_shape.
  rewrite fullmatch_lang. split.
  - intros (p & e & -> & (p1 & p2 & -> & H1 & d & t & -> & Hd & Ht) & He).
    apply lang_three_octets in H1. destruct H1 as (a & b & c & Ha & Hb & Hc & ->).
    apply lang_octet in Hd. apply lang_tail in Ht.
    exists a, b, c, d, t, e. repeat (split; [assumption|]).
    split.
    + destruct He as [He|He]; cbn in He; subst; auto.
    + now rewrite !sapp_assoc.
  - intros (a & b & c & d & t & e & Ha & Hb & Hc & Hd & Ht & He & ->).
    exists (a ++ "." ++ b ++ "." ++ c ++ "." ++ d ++ t), e.
    split; [now rewrite !sapp_assoc|]. split.
    + exists (a ++ "." ++ b ++ "." ++ c ++ "."), (d ++ t).
      split; [now rewrite !sapp_assoc|].
      split; [apply lang_three_octets; exists a, b, c; auto|].
      exists d, t. split; [reflexivity|].
      split; [now apply lang_octet|now apply lang_tail].
    + destruct He as [->| ->]; [right|left]; reflexivity.
Qed.

Lemma cidr_re_match_shape_witness : cidr_shape "10.0.5.0/24".
Proof.
  apply (proj1 (cidr_re_match_shape "10.0.5.0/24")). reflexivity.
Defined.

(** C5 as stated fails: "1.2.3.4/05" matches the pattern of the spec and
    its mask reads as 5, yet the pattern of [main] rejects it, as it does
    every two-digit mask that starts with 0.  And a string that ends in a
    newline is accepted. *)
Lemma cidr_leading_zero_mask_rejected :
  spec_cidr_accepts "1.2.3.4/05" = true
  /\ cidr_re_match "1.2.3.4/05" = false
  /\ cidr_re_match "1.2.3.4/5" = true
  /\ cidr_re_match ("1.2.3.4/5" ++ nl) = true.
Proof. vm_compute. auto. Qed.

(* ================================================================= *)
(** ** Invariants of every run of [main] *)

Lemma new_events_app w w' evs :
  trace w' = (trace w ++ evs)%list -> new_events w w' = evs.
Proof.
  unfold new_events. intros ->.
  rewrite skipn_app, skipn_all, Nat.sub_diag. reflexivity.
Qed.

Lemma clean_app a b : clean (a ++ b) = clean a && clean b.
Proof. unfold clean. apply forallb_app. Qed.

Lemma fatal_is_last_app a b :
  clean a = true -> fatal_is_last (a ++ b) = fatal_is_last b.
Proof.
  induction a as [|ev a IH]; simpl; intros H; [reflexivity|].
  apply andb_true_iff in H. destruct H as [H1 H2].
  destruct (fatal_event ev); [discriminate|]. now apply IH.
Qed.

Lemma quiet_clean evs : calls evs = [] -> clean evs = true.
Proof.
  induction evs as [|ev evs IH]; simpl; intros H; [reflexivity|].
  destruct ev; simpl in *; try discriminate; now apply IH.
Qed.

Lemma quiet_fatal_is_last evs : calls evs = [] -> fatal_is_last evs = true.
Proof.
  intros H. rewrite <- (app_nil_r evs), fatal_is_last_app; [reflexivity|].
  now apply quiet_clean.
Qed.

Lemma in_order_anti l : forall p p',
  p' <= p -> in_order p l = true -> in_order p' l = true.
Proof.
  destruct l as [|c l]; simpl; intros p p' Hp H; [reflexivity|].
  apply andb_true_iff in H. destruct H as [H1 H2]. rewrite H2, andb_true_r.
  apply orb_true_iff in H1. apply orb_true_iff.
  destruct H1 as [H1|H1].
  - left. apply Nat.ltb_lt in H1. apply Nat.ltb_lt. lia.
  - apply andb_true_iff in H1. destruct H1 as [E1 E2].
    apply Nat.eqb_eq in E1, E2.
    destruct (Nat.eq_dec p' 11) as [->|N].
    + right. now rewrite E2.
    + left. apply Nat.ltb_lt. lia.
Qed.

Lemma in_order_app l1 : forall p l2,
  in_order p (l1 ++ l2) = in_order p l1 && in_order (last_step p l1) l2.
Proof.
  induction l1 as [|c l1 IH]; simpl; intros p l2; [reflexivity|].
  now rewrite IH, andb_assoc.
Qed.

Lemma last_step_app l1 : forall p l2,
  last_step p (l1 ++ l2) = last_step (last_step p l1) l2.
Proof. induction l1 as [|c l1 IH]; simpl; intros; [reflexivity|apply IH]. Qed.

Lemma last_step_le l p q : p <= q -> last_step p l <= last_step q l.
Proof. destruct l; simpl; intros; [assumption|lia]. Qed.

(** Two stretches of a run, one after the other. *)
Lemma run_inv_app {A B} p q q' (P1 : A -> Prop) (P2 : B -> Prop)
    e1 a e2 (r : Res B) :
  run_inv p q P1 e1 (Val a) ->
  run_inv q q' P2 e2 r ->
  run_inv p q' P2 (e1 ++ e2) r.
Proof.
  intros (F1 & C1 & O1 & L1 & A1 & _) (F2 & C2 & O2 & L2 & A2 & V2).
  specialize (C1 eq_refl). unfold run_inv.
  rewrite fatal_is_last_app, clean_app, calls_app, in_order_app,
    last_step_app, forallb_app, C1, O1, A1, A2 by assumption.
  simpl. repeat split; auto.
  - apply (in_order_anti _ q); assumption.
  - pose proof (last_step_le (calls e2) _ _ L1). lia.
Qed.

Lemma run_inv_quiet {A} p (Post : A -> Prop) evs (r : Res A) :
  calls evs = [] ->
  (forall a, r = Val a -> Post a) ->
  run_inv p p Post evs r.
Proof.
  intros H HP. unfold run_inv.
  rewrite quiet_fatal_is_last, quiet_clean, H by assumption. simpl.
  repeat split; auto.
Qed.

Lemma run_inv_weaken {A} p q p' q' (P P' : A -> Prop) evs (r : Res A) :
  p' <= p -> q <= q' -> (forall a, P a -> P' a) ->
  run_inv p q P evs r -> run_inv p' q' P' evs r.
Proof.
  intros Hp Hq HP (F & C & O & L & Ar & V). unfold run_inv.
  repeat split; auto.
  - apply (in_order_anti _ p); assumption.
  - destruct (calls evs); simpl in *; lia.
Qed.

Lemma sat_bind {A B} p q q' (P1 : A -> Prop) (P2 : B -> Prop)
    (m : M A) (k : A -> M B) :
  q <= q' ->
  sat (run_inv p q P1) m ->
  (forall a, P1 a -> sat (run_inv q q' P2) (k a)) ->
  sat (run_inv p q' P2) (bind m k).
Proof.
  intros Hq Hm Hk w. destruct (Hm w) as (e1 & T1 & I1).
  rewrite bind_run. destruct (m w) as [w1 [a|e]]; simpl in *.
  - destruct (Hk a (proj2 (proj2 (proj2 (proj2 (proj2 I1)))) a eq_refl) w1)
      as (e2 & T2 & I2).
    exists (e1 ++ e2)%list. rewrite T2, T1, app_assoc. split; [reflexivity|].
    eapply run_inv_app; eassumption.
  - exists e1. split; [assumption|].
    destruct I1 as (F & C & O & L & Ar & V). unfold run_inv.
    repeat split; auto; try discriminate. lia.
Qed.

Lemma sat_weaken {A} p q p' q' (P P' : A -> Prop) (m : M A) :
  p' <= p -> q <= q' -> (forall a, P a -> P' a) ->
  sat (run_inv p q P) m -> sat (run_inv p' q' P') m.
Proof.
  intros Hp Hq HP H w. destruct (H w) as (evs & T & I).
  exists evs. split; [assumption|]. eapply run_inv_weaken; eassumption.
Qed.

Section RunInv.

Variable client : Client.

Local Arguments cidr_re_match : simpl never.

Lemma sat_ret {A} p (Post : A -> Prop) (a : A) :
  Post a -> sat (run_inv p p Post) (ret a).
Proof.
  intros H w. exists []. simpl. rewrite app_nil_r. split; [reflexivity|].
  apply run_inv_quiet; [reflexivity|]. now intros ? [= <-].
Qed.

Lemma sat_raise {A} p (Post : A -> Prop) e :
  sat (run_inv p p Post) (raise e).
Proof.
  intros w. exists []. simpl. rewrite app_nil_r. split; [reflexivity|].
  apply run_inv_quiet; [reflexivity|discriminate].
Qed.

Lemma sat_print p s : sat (run_inv p p (fun _ => True)) (print s).
Proof.
  intros w. exists [EPrint s]. split; [reflexivity|].
  apply run_inv_quiet; [reflexivity|auto].
Qed.

Lemma sat_input p prompt : sat (run_inv p p (fun _ => True)) (input prompt).
Proof.
  intros w. exists [EPrompt prompt]. unfold input.
  destruct (stdin w); (split; [reflexivity|]);
    apply run_inv_quiet; auto.
Qed.

Lemma while_not_vpc_quiet vpc lines :
  forall tr, exists evs,
    trace (fst (while_not_vpc vpc lines tr)) = (tr ++ evs)%list
    /\ calls evs = []
    /\ (returned (snd (while_not_vpc vpc lines tr)) = true -> vpc <> "").
Proof.
  induction lines as [|l rest IH]; intros tr; simpl;
    destruct (vpc =? "") eqn:E; simpl.
  - eexists. split; [reflexivity|]. split; [reflexivity|discriminate].
  - exists []. rewrite app_nil_r. repeat split.
    intros _ ->. discriminate.
  - destruct (IH (tr ++ [EPrint "Please provide a valid VPC ID."; EPrompt vpc_prompt])%list)
      as (evs & T & C & V).
    eexists (_ :: _ :: evs). rewrite T, <- app_assoc. repeat split; assumption.
  - exists []. rewrite app_nil_r. repeat split.
    intros _ ->. discriminate.
Qed.

Lemma sat_while_not_vpc p vpc :
  sat (run_inv p p (fun _ : unit => vpc <> ""))
      (fun w => while_not_vpc vpc (stdin w) (trace w)).
Proof.
  intros w. destruct (while_not_vpc_quiet vpc (stdin w) (trace w))
    as (evs & T & C & V).
  exists evs. split; [assumption|]. apply run_inv_quiet; [assumption|].
  intros a H. apply V. now rewrite H.
Qed.

Lemma while_not_cidr_quiet msg prompt lines :
  forall x tr, exists evs,
    trace (fst (while_not_cidr msg prompt x lines tr)) = (tr ++ evs)%list
    /\ calls evs = []
    /\ (forall y, snd (while_not_cidr msg prompt x lines tr) = Val y ->
                  cidr_re_match y = true).
Proof.
  induction lines as [|l rest IH]; intros x tr; simpl;
    destruct (cidr_re_match x) eqn:E; simpl.
  - exists []. rewrite app_nil_r. repeat split. now intros y [= <-].
  - eexists. split; [reflexivity|]. split; [reflexivity|discriminate].
  - exists []. rewrite app_nil_r. repeat split. now intros y [= <-].
  - destruct (IH l (tr ++ [EPrint msg; EPrompt prompt])%list) as (evs & T & C & V).
    eexists (_ :: _ :: evs). rewrite T, <- app_assoc. repeat split; assumption.
Qed.

Lemma sat_while_not_cidr p msg prompt x :
  sat (run_inv p p (fun y => cidr_re_match y = true))
      (fun w => while_not_cidr msg prompt x (stdin w) (trace w)).
Proof.
  intros w. destruct (while_not_cidr_quiet msg prompt (stdin w) x (trace w))
    as (evs & T & C & V).
  exists evs. split; [assumption|]. now apply run_inv_quiet.
Qed.

Lemma while_not_int_quiet lines :
  forall x tr, exists evs,
    trace (fst (while_not_int x lines tr)) = (tr ++ evs)%list /\ calls evs = [].
Proof.
  induction lines as [|l rest IH]; intros x tr; simpl;
    destruct (py_int x); simpl.
  - exists []. now rewrite app_nil_r.
  - eexists. split; reflexivity.
  - exists []. now rewrite app_nil_r.
  - destruct (IH l (tr ++ [EPrompt int_prompt])%list) as (evs & T & C).
    eexists (_ :: evs). rewrite T, <- app_assoc. split; [reflexivity|assumption].
Qed.

Lemma sat_while_not_int p x :
  sat (run_inv p p (fun _ => True))
      (fun w => while_not_int x (stdin w) (trace w)).
Proof.
  intros w. destruct (while_not_int_quiet (stdin w) x (trace w)) as (evs & T & C).
  exists evs. split; [assumption|]. apply run_inv_quiet; auto.
Qed.

(** For the functions that are a case analysis on the answers: the
    events of each case are explicit, and the invariant is computed. *)
Ltac sat_cases eqn :=
  intros w; rewrite eqn; cbv zeta; answers_goal;
  (eexists; split;
   [unfold emit; simpl; rewrite <- ?app_assoc; simpl; reflexivity|]);
  unfold run_inv; cbn;
  repeat match goal with
         | H : (_ =? _) = false |- _ => rewrite H
         | H : cidr_re_match _ = true |- _ => rewrite H
         end;
  cbn; repeat split; auto; try easy; try lia.

Lemma sat_create_client args :
  sat (run_inv 0 2 (fun _ => True)) (create_client client args).
Proof.
  intros w. unfold create_client, try_except, bind, api, ret, raise.
  destruct args; answers_goal;
  (eexists; split;
   [unfold emit; simpl; rewrite <- ?app_assoc; simpl; reflexivity|]);
  unfold run_inv; cbn; repeat split; auto; try easy; try lia.
Qed.

Lemma sat_create_igw vpc :
  (vpc =? "") = false ->
  sat (run_inv 2 4 (fun _ => True)) (create_igw client vpc).
Proof. intros Hv. sat_cases create_igw_eq. Qed.

Lemma sat_create_subnet cidr vpc :
  (vpc =? "") = false -> cidr_re_match cidr = true ->
  sat (run_inv 4 5 (fun _ => True)) (create_subnet client cidr vpc).
Proof. intros Hv Hc. sat_cases create_subnet_eq. Qed.

Lemma sat_setup_nat_gateway subnet :
  sat (run_inv 5 8 (fun _ => True)) (setup_nat_gateway client subnet).
Proof. sat_cases setup_nat_gateway_eq. Qed.

Lemma sat_create_route_table vpc subnet :
  (vpc =? "") = false ->
  sat (run_inv 8 10 (fun _ => True)) (create_route_table client vpc subnet).
Proof. intros Hv. sat_cases create_route_table_eq. Qed.

Lemma in_order_route p c :
  p <= 11 -> step c = 11 -> in_order p [c] = true.
Proof.
  intros Hp Hc. simpl. rewrite Hc, andb_true_r.
  destruct (Nat.ltb_spec p 11) as [H|H]; [reflexivity|].
  replace p with 11 by lia. reflexivity.
Qed.

(** One attempt on a route, with what is printed or slept after it. *)
Lemma run_inv_attempt {A} p rt dest kw gw a tail (Post : A -> Prop) (r : Res A) :
  p <= 11 ->
  cidr_re_match dest = true ->
  calls tail = [] ->
  (forall e, a = Raises e -> not_found e = false -> returned r = false) ->
  (forall x, r = Val x -> Post x) ->
  run_inv p 11 Post (ECall (CreateRoute rt dest kw gw) a :: tail) r.
Proof.
  intros Hp Hc Ht Hf HP. unfold run_inv.
  assert (Ct : clean tail = true) by now apply quiet_clean.
  assert (Cs : calls (ECall (CreateRoute rt dest kw gw) a :: tail) =
               [CreateRoute rt dest kw gw]) by (simpl; now rewrite Ht).
  split.
  { destruct a as [x|e]; simpl; [now apply quiet_fatal_is_last|].
    destruct (negb _); [now rewrite Ht|now apply quiet_fatal_is_last]. }
  split.
  { intros R. unfold clean. simpl. fold (clean tail). rewrite Ct, andb_true_r.
    destruct a as [x|e]; [reflexivity|]. simpl.
    destruct (not_found e) eqn:N; [reflexivity|].
    rewrite (Hf e eq_refl N) in R. discriminate. }
  rewrite Cs. split; [now apply in_order_route|].
  split; [simpl; lia|]. split; [simpl; now rewrite Hc|assumption].
Qed.

Lemma sat_create_route rt dest gw :
  cidr_re_match dest = true ->
  forall retries mode p,
    p <= 11 ->
    sat (run_inv p 11 (fun _ => True))
        (create_route client retries rt dest gw mode).
Proof.
  intros Hc.
  induction retries as [|n IH]; intros mode p Hp w; rewrite create_route_eq;
    (destruct (mode_kw mode) as [kw|];
     [|exists []; simpl; rewrite app_nil_r; split; [reflexivity|];
       apply (run_inv_weaken p p p 11 (fun _ => True) (fun _ => True)); auto;
       apply run_inv_quiet; [reflexivity|discriminate]]);
    cbv zeta;
    (destruct (client (trace w) (CreateRoute rt dest kw gw)) as [x|e];
     [eexists; split; [reflexivity|];
      apply run_inv_attempt; auto; discriminate|]);
    (destruct (not_found e) eqn:N;
     [|eexists; split; [reflexivity|];
       apply run_inv_attempt; auto; discriminate]).
  - eexists. split; [reflexivity|].
    apply run_inv_attempt; auto; try discriminate.
  - set (w' := emit w _).
    destruct (IH "nat" 11 (le_n 11) w') as (evs & T & I).
    exists ((ECall (CreateRoute rt dest kw gw) (Raises e) :: retry_events) ++ evs)%list.
    rewrite T. subst w'.
    split; [unfold emit; cbn [trace]; now rewrite <- app_assoc|].
    apply (run_inv_app p 11 11 (fun _ : unit => True) _ _ tt); [|exact I].
    apply run_inv_attempt; auto; try discriminate.
    intros e' [= <-]. congruence.
Qed.

Lemma sat_route_loop retries rt gw :
  forall count i,
    sat (run_inv 11 11 (fun _ => True)) (route_loop client retries rt gw count i).
Proof.
  induction count as [|n IH]; intros i; cbn [route_loop].
  - now apply sat_ret.
  - eapply sat_bind; [apply le_n|apply sat_input|intros d0 _].
    eapply sat_bind; [apply le_n|apply sat_while_not_cidr|intros d Hd].
    eapply sat_bind; [apply le_n|now apply sat_create_route|intros ok _].
    eapply sat_bind; [apply le_n| |intros _ _; apply IH].
    destruct (negb (resp_truthy ok)); [apply sat_print|now apply sat_ret].
Qed.

(** The invariant holds of every run of [main]. *)
Lemma sat_main retries :
  sat (run_inv 0 11 (fun _ => True)) (main client retries).
Proof.
  unfold main.
  apply (sat_bind 0 2 11 (fun _ => True)); [lia|apply sat_create_client|intros _ _].
  apply (sat_bind 2 2 11 (fun _ => True)); [lia|apply sat_input|intros vpc _].
  apply (sat_bind 2 2 11 (fun _ => vpc <> ""));
    [lia|apply sat_while_not_vpc|intros _ Hv].
  apply String.eqb_neq in Hv.
  apply (sat_bind 2 2 11 (fun _ => True)); [lia|apply sat_input|intros cidr0 _].
  apply (sat_bind 2 2 11 (fun y => cidr_re_match y = true));
    [lia|apply sat_while_not_cidr|intros cidr Hc].
  apply (sat_bind 2 4 11 (fun _ => True));
    [lia|now apply sat_create_igw|intros igw _].
  apply (sat_bind 4 5 11 (fun _ => True));
    [lia|now apply sat_create_subnet|intros subnet _].
  apply (sat_bind 5 8 11 (fun _ => True));
    [lia|apply sat_setup_nat_gateway|intros ng _].
  apply (sat_bind 8 10 11 (fun _ => True));
    [lia|now apply sat_create_route_table|intros rt _].
  apply (sat_bind 10 11 11 (fun _ => True));
    [lia|apply sat_create_route; [reflexivity|lia]|intros ok _].
  destruct (negb (resp_truthy ok)); [apply sat_raise|].
  apply (sat_bind 11 11 11 (fun _ => True)); [lia|apply sat_input|intros n0 _].
  apply (sat_bind 11 11 11 (fun _ => True));
    [lia|apply sat_while_not_int|intros n _].
  apply (sat_bind 11 11 11 (fun _ => True));
    [lia|apply sat_route_loop|intros _ _].
  now apply sat_ret.
Qed.

End RunInv.

Lemma fatal_is_last_split pre : forall ev post,
  fatal_is_last (pre ++ ev :: post) = true ->
  fatal_event ev = true ->
  calls post = [].
Proof.
  induction pre as [|x pre IH]; simpl; intros ev post H F.
  - rewrite F in H. destruct (calls post); [reflexivity|discriminate].
  - destruct (fatal_event x).
    + rewrite calls_app in H. destruct ev as [| | |c a]; try discriminate F.
      simpl in H. destruct (calls pre); discriminate.
    + now apply (IH ev).
Qed.

Lemma in_order_once s l : forall p,
  in_order p l = true -> s < 11 ->
  count_step s l <= 1 /\ (s <= p -> count_step s l = 0).
Proof.
  unfold count_step.
  induction l as [|c l IH]; simpl; intros p H Hs; [auto|].
  apply andb_true_iff in H. destruct H as [H1 H2].
  destruct (IH _ H2 Hs) as [I1 I2].
  assert (Hp : p < step c \/ (p = 11 /\ step c = 11)).
  { apply orb_true_iff in H1. destruct H1 as [H1|H1].
    - left. now apply Nat.ltb_lt.
    - right. apply andb_true_iff in H1. destruct H1 as [E1 E2].
      now apply Nat.eqb_eq in E1, E2. }
  destruct (Nat.eqb_spec (step c) s) as [E|E]; simpl.
  - rewrite I2 by lia. split; [lia|]. intros. lia.
  - split; [assumption|]. intros. apply I2. lia.
Qed.

(** X1.  In every run of [main], a client call that raises is the last
    call of the run, and the run does not return, unless the error is one
    the script goes on after: an error of the creation of the NAT gateway
    or of the wait for it, or an error on a route with "NotFound" in its
    text. *)
Theorem main_fatal_error_is_last (client : Client) retries w pre c e post :
  new_events w (fst (main client retries w)) =
    (pre ++ ECall c (Raises e) :: post)%list ->
  survivable c e = false ->
  calls post = [] /\ returned (snd (main client retries w)) = false.
Proof.
  intros Hn Hs.
  destruct (sat_main client retries w) as (evs & T & F & C & _).
  rewrite (new_events_app _ _ _ T) in Hn. subst evs.
  assert (Fe : fatal_event (ECall c (Raises e)) = true) by (simpl; now rewrite Hs).
  split; [now apply (fatal_is_last_split pre _ _ F)|].
  destruct (returned _); [|reflexivity].
  specialize (C eq_refl). rewrite clean_app in C. simpl in C.
  rewrite Hs in C. simpl in C. now rewrite andb_false_r in C.
Qed.

Lemma main_fatal_error_is_last_witness :
  calls (@nil Event) = []
  /\ returned (snd (main (Stubs.failing
                            (fun c => match c with CreateSubnet _ _ => true | _ => false end)
                            Stubs.InvalidParam) 3
                      (mkWorld Stubs.operator []))) = false.
Proof.
  refine (let stub := Stubs.failing
                        (fun c => match c with CreateSubnet _ _ => true | _ => false end)
                        Stubs.InvalidParam in
          let w := mkWorld Stubs.operator [] in
          let evs := new_events w (fst (main stub 3 w)) in
          main_fatal_error_is_last stub 3 w (removelast evs)
            (CreateSubnet "vpc-123" "10.0.5.0/24") Stubs.InvalidParam [] _ _).
  - vm_compute. reflexivity.
  - reflexivity.
Defined.

(** X2.  In every run of [main], aborted or not, every CIDR block handed
    to the client (for the subnet, for a route) has matched the pattern,
    and every VPC ID handed to the client is not empty. *)
Theorem main_arguments_checked (client : Client) retries w :
  forallb arg_ok (calls (new_events w (fst (main client retries w)))) = true.
Proof.
  destruct (sat_main client retries w) as (evs & T & _ & _ & _ & _ & A & _).
  now rewrite (new_events_app _ _ _ T).
Qed.

(** X3.  In every run of [main], aborted or not, the client calls come in
    the order of the steps (session, probe, internet gateway, attachment,
    subnet, address, NAT gateway, wait, route table, association, routes):
    no call of an earlier step follows one of a later step, and every
    step but the routes is called at most once. *)
Theorem main_steps_in_order (client : Client) retries w s :
  in_order 0 (calls (new_events w (fst (main client retries w)))) = true
  /\ (s < 11 ->
      count_step s (calls (new_events w (fst (main client retries w)))) <= 1).
Proof.
  destruct (sat_main client retries w) as (evs & T & _ & _ & O & _).
  rewrite (new_events_app _ _ _ T). split; [assumption|].
  intros Hs. now apply (in_order_once s _ 0 O).
Qed.

Lemma main_steps_in_order_witness :
  in_order 0 (calls (new_events (mkWorld Stubs.operator [])
                       (fst (main Stubs.happy 3 (mkWorld Stubs.operator []))))) = true
  /\ count_step 7 (calls (new_events (mkWorld Stubs.operator [])
                            (fst (main Stubs.happy 3 (mkWorld Stubs.operator []))))) <= 1.
Proof.
  destruct (main_steps_in_order Stubs.happy 3 (mkWorld Stubs.operator []) 7)
    as [H1 H2].
  split; [exact H1|]. apply H2. lia.
Defined.

(* ================================================================= *)
(** ** The client connection *)

Lemma contains_refl x : contains x x = true.
Proof.
  pose proof (contains_mid x "" "") as H. simpl in H.
  now rewrite sapp_nil_r in H.
Qed.

Lemma contains_end x a : contains x (a ++ x) = true.
Proof. apply contains_app_r, contains_refl. Qed.

Lemma create_client_eq (client : Client) args w :
  create_client client args w =
  let c0 := SessionClient (hd_error args) in
  match client (trace w) c0 with
  | Raises e => (emit w [ECall c0 (Raises e)], Exn (client_error e))
  | Ok r0 =>
      let w1 := emit w [ECall c0 (Ok r0)] in
      match client (trace w1) DescribeInstances with
      | Raises e => (emit w1 [ECall DescribeInstances (Raises e)], Exn (client_error e))
      | Ok r1 => (emit w1 [ECall DescribeInstances (Ok r1)], Val tt)
      end
  end.
Proof.
  unfold create_client, client_error, try_except, bind, api, ret, raise.
  destruct args; answers_goal; unfold emit; simpl; rewrite <- ?app_assoc;
    reflexivity.
Qed.

Lemma client_error_class e :
  exc_cls (client_error e) <> ClientError
  /\ exc_cls (client_error e) <> NoRegionError
  /\ exc_cls (client_error e) <> NoCredentialsError.
Proof.
  unfold client_error. destruct (exc_cls e) eqn:E; simpl; rewrite ?E;
    repeat split; discriminate.
Qed.

Lemma client_error_text e :
  exc_cls e = ClientError ->
  exc_cls (client_error e) = PyException
  /\ contains (exc_str e) (exc_str (client_error e)) = true.
Proof.
  unfold client_error. intros ->. split; [reflexivity|].
  cbn [exc_str]. apply contains_end.
Qed.

(** X4.  [create_client] lets no [ClientError], [NoRegionError] or
    [NoCredentialsError] out: whatever it raises is of another class.
    When the session or the probe raised a [ClientError], what comes out
    is a plain [Exception] whose text contains the text of that error. *)
Theorem create_client_translates_errors (client : Client) args w e :
  snd (create_client client args w) = Exn e ->
  (exc_cls e <> ClientError /\ exc_cls e <> NoRegionError
   /\ exc_cls e <> NoCredentialsError)
  /\ (forall c e0,
        In (ECall c (Raises e0)) (new_events w (fst (create_client client args w))) ->
        exc_cls e0 = ClientError ->
        exc_cls e = PyException /\ contains (exc_str e0) (exc_str e) = true).
Proof.
  rewrite create_client_eq. cbv zeta.
  destruct (client (trace w) _) as [r0|e0] eqn:A0.
  - destruct (client (trace (emit w _)) _) as [r1|e1] eqn:A1; simpl;
      [discriminate|].
    intros [= <-]. split; [apply client_error_class|].
    intros c e0 Hin Hc.
    rewrite (new_events_app w _ [ECall (SessionClient (hd_error args)) (Ok r0);
                                 ECall DescribeInstances (Raises e1)]) in Hin
      by (simpl; now rewrite <- app_assoc).
    destruct Hin as [H|[H|[]]]; inversion H; subst.
    now apply client_error_text.
  - simpl. intros [= <-]. split; [apply client_error_class|].
    intros c e1 Hin Hc.
    rewrite (new_events_app w _ [ECall (SessionClient (hd_error args)) (Raises e0)])
      in Hin by reflexivity.
    destruct Hin as [H|[]]; inversion H; subst.
    now apply client_error_text.
Qed.

Lemma create_client_translates_errors_witness :
  (PyException <> ClientError /\ PyException <> NoRegionError
   /\ PyException <> NoCredentialsError)
  /\ (forall c e0,
        In (ECall c (Raises e0))
           (new_events (mkWorld [] [])
              (fst (create_client
                      (Stubs.failing (fun c => match c with DescribeInstances => true
                                                       | _ => false end)
                         Stubs.InvalidParam) [] (mkWorld [] []))))  ->
        exc_cls e0 = ClientError ->
        PyException = PyException
        /\ contains (exc_str e0)
             (exc_str (client_error Stubs.InvalidParam)) = true).
Proof.
  apply (create_client_translates_errors
           (Stubs.failing (fun c => match c with DescribeInstances => true
                                            | _ => false end)
              Stubs.InvalidParam) [] (mkWorld [] [])
           (client_error Stubs.InvalidParam)).
  reflexivity.
Defined.

(** X5.  When [create_client] does not return, [main] ends there: the
    world is as [create_client] left it, so no line of the operator is
    read, nothing is asked, and no resource is set up. *)
Theorem main_stops_without_client (client : Client) retries w :
  returned (snd (create_client client [] w)) = false ->
  fst (main client retries w) = fst (create_client client [] w)
  /\ stdin (fst (main client retries w)) = stdin w
  /\ provisioning_calls (new_events w (fst (main client retries w))) = []
  /\ returned (snd (main client retries w)) = false.
Proof.
  intros H. unfold main. rewrite bind_run.
  pose proof (create_client_quiet client [] w) as [Hs Hp]. cbv zeta in Hs, Hp.
  assert (Hn : provisioning_calls (new_events w (fst (create_client client [] w))) = []).
  { rewrite create_client_eq. cbv zeta.
    destruct (client (trace w) _) as [r0|e0];
      [destruct (client (trace (emit w _)) _) as [r1|e1]|]; simpl;
      unfold new_events; simpl;
      rewrite <- ?app_assoc, skipn_app, skipn_all, Nat.sub_diag; reflexivity. }
  destruct (create_client client [] w) as [w1 [[]|e]]; simpl in *;
    try discriminate; auto.
Qed.

Lemma main_stops_without_client_witness :
  let stub := Stubs.failing (fun c => match c with SessionClient _ => true
                                           | _ => false end)
                (Exc NoCredentialsError "Unable to locate credentials") in
  let w := mkWorld Stubs.operator [] in
  fst (main stub 3 w) = fst (create_client stub [] w)
  /\ stdin (fst (main stub 3 w)) = stdin w
  /\ provisioning_calls (new_events w (fst (main stub 3 w))) = []
  /\ returned (snd (main stub 3 w)) = false.
Proof.
  apply (main_stops_without_client
           (Stubs.failing (fun c => match c with SessionClient _ => true
                                            | _ => false end)
              (Exc NoCredentialsError "Unable to locate credentials"))
           3 (mkWorld Stubs.operator [])).
  reflexivity.
Defined.

(* ================================================================= *)
(** ** The prompt for a CIDR block *)

Lemma while_not_cidr_skips msg prompt good rest :
  cidr_re_match good = true ->
  forall bad tr,
    Forall (fun l => cidr_re_match l = false) bad ->
    while_not_cidr msg prompt (hd good bad) (tl (bad ++ [good]) ++ rest) tr =
    (mkWorld rest (tr ++ flat_map (fun _ => [EPrint msg; EPrompt prompt]) bad),
     Val good).
Proof.
  intros Hgood.
  induction bad as [|b bad IH]; intros tr Hbad.
  - simpl. destruct rest; simpl; rewrite Hgood, app_nil_r; reflexivity.
  - inversion Hbad as [|? ? Hb Hbad']; subst.
    specialize (IH (tr ++ [EPrint msg; EPrompt prompt])%list Hbad').
    rewrite <- app_assoc in IH.
    destruct bad as [|b' bad]; simpl in *; rewrite Hb; exact IH.
Qed.

Lemma while_not_cidr_eof msg prompt lines :
  forall x tr,
    Forall (fun l => cidr_re_match l = false) (x :: lines) ->
    while_not_cidr msg prompt x lines tr =
    (mkWorld [] (tr ++ flat_map (fun _ => [EPrint msg; EPrompt prompt]) (x :: lines)),
     Exn eof).
Proof.
  induction lines as [|l rest IH]; intros x tr H;
    inversion H as [|? ? Hx H']; subst; simpl; rewrite Hx.
  - reflexivity.
  - rewrite (IH l _ H'). simpl. now rewrite <- app_assoc.
Qed.

(** X6.  The loop that asks for a CIDR block takes the first answer that
    matches the pattern: each answer before it is refused with one
    message and one new prompt, the answer itself is returned as typed,
    and the lines after it stay unread.  When no answer matches, every
    line is used up and the loop ends with [EOFError]. *)
Theorem while_not_cidr_first_match msg prompt bad good rest tr :
  Forall (fun l => cidr_re_match l = false) bad ->
  (cidr_re_match good = true ->
   while_not_cidr msg prompt (hd good bad) (tl (bad ++ [good]) ++ rest) tr =
   (mkWorld rest (tr ++ flat_map (fun _ => [EPrint msg; EPrompt prompt]) bad),
    Val good))
  /\ (cidr_re_match good = false ->
      while_not_cidr msg prompt (hd good bad) (tl (bad ++ [good])) tr =
      (mkWorld [] (tr ++ flat_map (fun _ => [EPrint msg; EPrompt prompt])
                            (bad ++ [good])),
       Exn eof)).
Proof.
  intros Hbad. split; intros Hgood.
  - now apply while_not_cidr_skips.
  - assert (F : Forall (fun l => cidr_re_match l = false) (bad ++ [good])).
    { apply Forall_app. split; [assumption|]. now constructor. }
    destruct bad as [|b bad]; cbn [hd tl app] in *;
      now apply while_not_cidr_eof.
Qed.

Lemma while_not_cidr_first_match_witness :
  while_not_cidr cidr_invalid cidr_prompt "10.0.5/24"
    (["ten.0.5.0/24"; "10.0.5.0/24"] ++ ["2"]) [] =
    (mkWorld ["2"]
       ([] ++ flat_map (fun _ => [EPrint cidr_invalid; EPrompt cidr_prompt])
                ["10.0.5/24"; "ten.0.5.0/24"]),
     Val "10.0.5.0/24")
  /\ while_not_cidr cidr_invalid cidr_prompt "10.0.5/24"
       ["ten.0.5.0/24"; "10.0.5.0/33"] [] =
     (mkWorld []
        ([] ++ flat_map (fun _ => [EPrint cidr_invalid; EPrompt cidr_prompt])
                 (["10.0.5/24"; "ten.0.5.0/24"] ++ ["10.0.5.0/33"])),
      Exn eof).
Proof.
  split.
  - apply (proj1 (while_not_cidr_first_match cidr_invalid cidr_prompt
                    ["10.0.5/24"; "ten.0.5.0/24"] "10.0.5.0/24" ["2"] []
                    ltac:(repeat constructor))).
    reflexivity.
  - apply (proj2 (while_not_cidr_first_match cidr_invalid cidr_prompt
                    ["10.0.5/24"; "ten.0.5.0/24"] "10.0.5.0/33" [] []
                    ltac:(repeat constructor))).
    reflexivity.
Defined.

(* ================================================================= *)
(** ** What [create_route] gives back *)


Lemma create_route_result (client : Client) rt dest gw :
  forall retries mode w,
    match snd (create_route client retries rt dest gw mode w) with
    | Val x =>
        exists pre kw,
          trace (fst (create_route client retries rt dest gw mode w)) =
          (trace w ++ pre ++ [ECall (CreateRoute rt dest kw gw) (Ok x);
                              EPrint ("Route created" ++ nl)])%list
    | Exn e => exists e0, e = route_error dest gw rt e0
    end.
Proof.
  induction retries as [|n IH]; intros mode w; rewrite create_route_eq;
    (destruct (mode_kw mode) as [kw|]; [|simpl; eauto]); cbv zeta;
    (destruct (client (trace w) (CreateRoute rt dest kw gw)) as [x|e];
     [simpl; exists [], kw; reflexivity|]);
    (destruct (not_found e); [|simpl; eauto]); [simpl; eauto|].
  set (w' := emit w _). specialize (IH "nat" w').
  destruct (snd (create_route client n rt dest gw "nat" w')); auto.
  destruct IH as (pre & kw' & ->).
  exists ((ECall (CreateRoute rt dest kw gw) (Raises e) :: retry_events) ++ pre)%list, kw'.
  subst w'. unfold emit. cbn [trace]. now rewrite <- !app_assoc.
Qed.



(* ================================================================= *)
(** ** A response that counts as false *)

(** X8.  In the loop over the additional routes, a response that is false
    as a truth value does not stop anything: "Route created" has been
    printed by [create_route], the warning for the destination follows,
    and the loop goes on with the next index and the lines that are
    left. *)
Theorem route_loop_falsy_response_warns (client : Client)
    retries rt gw count i w dest rest x :
  stdin w = dest :: rest ->
  cidr_re_match dest = true ->
  client (trace w ++ [EPrompt (route_prompt i)])%list
    (CreateRoute rt dest NatGatewayId gw) = Ok x ->
  resp_truthy x = false ->
  route_loop client retries rt gw (S count) i w =
  route_loop client retries rt gw count (S i)
    (mkWorld rest
       (trace w ++ [EPrompt (route_prompt i);
                    ECall (CreateRoute rt dest NatGatewayId gw) (Ok x);
                    EPrint ("Route created" ++ nl);
                    EPrint ("Warning: Could not create route " ++ dest)])).
Proof.
  intros Hs Hd Ha Hf. cbn [route_loop].
  rewrite bind_run. unfold input. rewrite Hs.
  rewrite bind_run. cbn [stdin trace].
  destruct rest as [|l rest']; cbn [while_not_cidr]; rewrite Hd;
    rewrite bind_run, create_route_eq;
    change (mode_kw "nat") with (Some NatGatewayId);
    cbv beta iota zeta; cbn [trace]; rewrite Ha;
    rewrite bind_run, Hf; cbn [negb]; unfold print, emit; cbn [stdin trace];
    rewrite <- !app_assoc; reflexivity.
Qed.

Lemma route_loop_falsy_response_warns_witness :
  let stub : Client := fun tr c => if Stubs.is_nat_route c then Ok (Resp "" false)
                                   else Stubs.happy tr c in
  route_loop stub 3 "rtb-1" (Some "nat-1") 2 0
    (mkWorld ["172.16.0.0/16"; "192.168.1.0/24"] []) =
  route_loop stub 3 "rtb-1" (Some "nat-1") 1 1
    (mkWorld ["192.168.1.0/24"]
       ([] ++ [EPrompt (route_prompt 0);
               ECall (CreateRoute "rtb-1" "172.16.0.0/16" NatGatewayId (Some "nat-1"))
                 (Ok (Resp "" false));
               EPrint ("Route created" ++ nl);
               EPrint ("Warning: Could not create route " ++ "172.16.0.0/16")])).
Proof.
  apply (route_loop_falsy_response_warns
           (fun tr c => if Stubs.is_nat_route c then Ok (Resp "" false)
                        else Stubs.happy tr c)
           3 "rtb-1" (Some "nat-1") 1 0
           (mkWorld ["172.16.0.0/16"; "192.168.1.0/24"] [])
           "172.16.0.0/16" ["192.168.1.0/24"] (Resp "" false));
    reflexivity.
Defined.

(* ================================================================= *)
(** ** What [setup_nat_gateway] gives back *)

(** X9.  [setup_nat_gateway] returns an identifier only for a gateway that
    it created and whose wait came back without error, and those are then
    its last two calls.  It raises only when the address could not be
    allocated, and then the creation of the gateway was not tried. *)
Theorem setup_nat_gateway_gives_back (client : Client) subnet w :
  (forall nat,
     snd (setup_nat_gateway client subnet w) = Val (Some nat) ->
     exists alloc created waited,
       resp_id created = nat
       /\ new_events w (fst (setup_nat_gateway client subnet w)) =
          [ECall (AllocateAddress "vpc") (Ok alloc);
           ECall (CreateNatGateway subnet (resp_id alloc)) (Ok created);
           EPrint ("Creating NAT gateway " ++ nat ++ "..." ++ nl);
           ECall (WaitNatGatewayAvailable [nat]) (Ok waited);
           EPrint ("Created NAT gateway" ++ nl)])
  /\ (forall e,
        snd (setup_nat_gateway client subnet w) = Exn e ->
        exists e0,
          new_events w (fst (setup_nat_gateway client subnet w)) =
          [ECall (AllocateAddress "vpc") (Raises e0)]).
Proof.
  rewrite setup_nat_gateway_eq. cbv zeta.
  destruct (client (trace w) _) as [alloc|e0].
  - destruct (client (trace (emit w _)) _) as [created|e1].
    + destruct (client (trace (emit (emit w _) _)) _) as [waited|e2];
        cbn [fst snd]; (split; [|discriminate]); [|discriminate].
      intros nat [= <-]. exists alloc, created, waited.
      split; [reflexivity|]. apply new_events_app.
      unfold emit. cbn [trace]. now rewrite <- !app_assoc.
    + cbn [fst snd]. split; discriminate.
  - cbn [fst snd]. split; [discriminate|]. intros e _. exists e0.
    now apply new_events_app.
Qed.

Lemma setup_nat_gateway_gives_back_witness :
  (exists alloc created waited,
     resp_id created = "nat-1"
     /\ new_events (mkWorld [] [])
          (fst (setup_nat_gateway Stubs.happy "subnet-1" (mkWorld [] []))) =
        [ECall (AllocateAddress "vpc") (Ok alloc);
         ECall (CreateNatGateway "subnet-1" (resp_id alloc)) (Ok created);
         EPrint ("Creating NAT gateway " ++ "nat-1" ++ "..." ++ nl);
         ECall (WaitNatGatewayAvailable ["nat-1"]) (Ok waited);
         EPrint ("Created NAT gateway" ++ nl)])
  /\ (exists e0,
        new_events (mkWorld [] [])
          (fst (setup_nat_gateway
                  (Stubs.failing (fun c => match c with AllocateAddress _ => true
                                                   | _ => false end)
                     Stubs.InvalidParam) "subnet-1" (mkWorld [] []))) =
        [ECall (AllocateAddress "vpc") (Raises e0)]).
Proof.
  split.
  - apply (proj1 (setup_nat_gateway_gives_back Stubs.happy "subnet-1" (mkWorld [] []))
             "nat-1").
    reflexivity.
  - apply (proj2 (setup_nat_gateway_gives_back
                    (Stubs.failing (fun c => match c with AllocateAddress _ => true
                                                     | _ => false end)
                       Stubs.InvalidParam) "subnet-1" (mkWorld [] []))
             (Exc PyException ("Error allocating ip: " ++ exc_str Stubs.InvalidParam))).
    reflexivity.
Defined.

(* ================================================================= *)
(** ** Numbers in a CIDR block *)

Lemma cidr_lang_shape s :
  lang (Seq cidr_re (Opt (Chr (ascii_of_nat 10)))) s <-> cidr_shape s.
Proof.
  unfold cidr_shape. split.
  - intros (p & e & -> & (p1 & p2 & -> & H1 & d & t & -> & Hd & Ht) & He).
    apply lang_three_octets in H1. destruct H1 as (a & b & c & Ha & Hb & Hc & ->).
    apply lang_octet in Hd. apply lang_tail in Ht.
    exists a, b, c, d, t, e. repeat (split; [assumption|]).
    split; [destruct He as [He|He]; cbn in He; subst; auto|].
    now rewrite !sapp_assoc.
  - intros (a & b & c & d & t & e & Ha & Hb & Hc & Hd & Ht & He & ->).
    exists (a ++ "." ++ b ++ "." ++ c ++ "." ++ d ++ t), e.
    split; [now rewrite !sapp_assoc|]. split.
    + exists (a ++ "." ++ b ++ "." ++ c ++ "."), (d ++ t).
      split; [now rewrite !sapp_assoc|].
      split; [apply lang_three_octets; exists a, b, c; auto|].
      exists d, t. split; [reflexivity|].
      split; [now apply lang_octet|now apply lang_tail].
    + destruct He as [->| ->]; [right|left]; reflexivity.
Qed.

Lemma octet_b_octet s : octet_b s = true -> octet s.
Proof.
  unfold octet_b, octet. intros H.
  apply andb_true_iff in H. destruct H as [H D].
  apply andb_true_iff in H. destruct H as [L1 L2].
  apply Nat.leb_le in L1, L2. auto.
Qed.

Lemma octets_below_1000 :
  forallb (fun a => octet_b (decimal a)) (seq 0 1000) = true.
Proof. vm_compute. reflexivity. Qed.

Lemma octet_decimal a : a < 1000 -> octet (decimal a).
Proof.
  intros H. apply octet_b_octet.
  apply (proj1 (forallb_forall _ _) octets_below_1000).
  apply in_seq. lia.
Qed.

(** X10.  The pattern checks the form of a CIDR block, not the range of
    its octets: a block written with four numbers below 1000 (256 to 999
    included) is accepted, alone or with a mask from 0 to 32. *)
Theorem cidr_numbers_accepted a b c d n :
  a < 1000 -> b < 1000 -> c < 1000 -> d < 1000 -> n <= 32 ->
  cidr_re_match (decimal a ++ "." ++ decimal b ++ "." ++ decimal c ++ "."
                   ++ decimal d) = true
  /\ cidr_re_match (decimal a ++ "." ++ decimal b ++ "." ++ decimal c ++ "."
                      ++ decimal d ++ "/" ++ decimal n) = true.
Proof.
  intros Ha Hb Hc Hd Hn.
  unfold cidr_re_match, re_match_dollar. rewrite !fullmatch_lang.
  split; apply cidr_lang_shape.
  - exists (decimal a), (decimal b), (decimal c), (decimal d), "", "".
    repeat (split; [now apply octet_decimal|]).
    split; [now left|]. split; [now left|]. now rewrite !sapp_nil_r.
  - exists (decimal a), (decimal b), (decimal c), (decimal d),
      ("/" ++ decimal n), "".
    repeat (split; [now apply octet_decimal|]).
    split; [right; exists (decimal n); split; [exists n; auto|reflexivity]|].
    split; [now left|]. now rewrite !sapp_nil_r.
Qed.

Lemma cidr_numbers_accepted_witness :
  cidr_re_match (decimal 999 ++ "." ++ decimal 256 ++ "." ++ decimal 0 ++ "."
                   ++ decimal 7) = true
  /\ cidr_re_match (decimal 999 ++ "." ++ decimal 256 ++ "." ++ decimal 0 ++ "."
                      ++ decimal 7 ++ "/" ++ decimal 32) = true.
Proof.
  apply (cidr_numbers_accepted 999 256 0 7 32); lia.
Defined.

Lemma digit_not_slash c : is_digit c = true -> Ascii.eqb c "/" = false.
Proof.
  destruct (Ascii.eqb_spec c "/") as [->|N]; [discriminate|reflexivity].
Qed.

Lemma after_slash_digits x y :
  all_digits x = true -> after_slash (x ++ y) = after_slash y.
Proof.
  induction x as [|c x IH]; simpl; intros H; [reflexivity|].
  apply andb_true_iff in H. destruct H as [Hc Hx].
  rewrite (digit_not_slash _ Hc). now apply IH.
Qed.

Lemma after_slash_octet x y :
  octet x -> after_slash (x ++ "." ++ y) = after_slash y.
Proof. intros [_ D]. now rewrite after_slash_digits. Qed.

Lemma mask_reads m e :
  mask m -> e = "" \/ e = nl ->
  exists n, py_int (m ++ e) = Some n /\ (0 <= n <= 32)%Z.
Proof.
  intros (n & Hn & ->) He.
  exists (Z.of_nat n). split; [|lia].
  do 33 (destruct n as [|n];
         [destruct He as [->| ->]; vm_compute; reflexivity|]).
  lia.
Qed.

(** X11.  Whatever string the pattern accepts, if it has a slash, what
    follows the slash reads, with [int], as a number from 0 to 32. *)
Theorem cidr_accepted_mask_bound s m :
  cidr_re_match s = true ->
  after_slash s = Some m ->
  exists n, py_int m = Some n /\ (0 <= n <= 32)%Z.
Proof.
  unfold cidr_re_match, re_match_dollar. rewrite fullmatch_lang.
  intros H. apply cidr_lang_shape in H.
  destruct H as (a & b & c & d & t & e & Ha & Hb & Hc & Hd & Ht & He & ->).
  rewrite !after_slash_octet by assumption.
  destruct Hd as [_ Dd]. rewrite after_slash_digits by assumption.
  destruct Ht as [->|(k & Hk & ->)].
  - destruct He as [->| ->]; discriminate.
  - rewrite sapp_assoc. simpl. intros [= <-]. now apply mask_reads.
Qed.

Lemma cidr_accepted_mask_bound_witness :
  exists n, py_int "24" = Some n /\ (0 <= n <= 32)%Z.
Proof.
  apply (cidr_accepted_mask_bound "10.0.5.0/24" "24"); reflexivity.
Defined.

(* ================================================================= *)
(** ** The exceptions that leave [main] *)

Lemma raises_only_bind {A B} (P : exc -> Prop) (m : M A) (k : A -> M B) :
  raises_only P m -> (forall a, raises_only P (k a)) ->
  raises_only P (bind m k).
Proof.
  intros Hm Hk w e. rewrite bind_run. specialize (Hm w).
  destruct (m w) as [w1 [a|e1]]; simpl in *.
  - apply Hk.
  - intros [= <-]. now apply Hm.
Qed.

Lemma while_not_vpc_raises vpc lines :
  forall tr e, snd (while_not_vpc vpc lines tr) = Exn e -> e = eof.
Proof.
  induction lines as [|l rest IH]; intros tr e; simpl;
    destruct (vpc =? ""); simpl; try discriminate.
  - now intros [= <-].
  - apply IH.
Qed.

Lemma while_not_cidr_raises msg prompt lines :
  forall x tr e, snd (while_not_cidr msg prompt x lines tr) = Exn e -> e = eof.
Proof.
  induction lines as [|l rest IH]; intros x tr e; simpl;
    destruct (cidr_re_match x); simpl; try discriminate.
  - now intros [= <-].
  - apply IH.
Qed.

Lemma while_not_int_raises lines :
  forall x tr e, snd (while_not_int x lines tr) = Exn e -> e = eof.
Proof.
  induction lines as [|l rest IH]; intros x tr e; simpl;
    destruct (py_int x); simpl; try discriminate.
  - now intros [= <-].
  - apply IH.
Qed.

Section Raises.

Variable client : Client.

Ltac raises_cases eqn :=
  intros w e; rewrite eqn; cbv zeta;
  repeat match goal with
  | |- context [match client ?t ?c with Ok _ => _ | Raises _ => _ end] =>
      destruct (client t c) as [?r|?e]
  end; cbn [snd]; try discriminate;
  intros [= <-]; unfold not_client_error;
  match goal with
  | |- context [match exc_cls ?x with ClientError => _ | _ => _ end] =>
      destruct (exc_cls x) eqn:?; simpl; congruence
  end.

Lemma raises_create_client args :
  raises_only not_client_error (create_client client args).
Proof.
  intros w e. rewrite create_client_eq. cbv zeta.
  repeat match goal with
  | |- context [match client ?t ?c with Ok _ => _ | Raises _ => _ end] =>
      destruct (client t c) as [?r|?e]
  end; cbn [snd]; try discriminate;
  intros [= <-]; apply client_error_class.
Qed.

Lemma raises_create_igw vpc :
  raises_only not_client_error (create_igw client vpc).
Proof. raises_cases create_igw_eq. Qed.

Lemma raises_create_subnet cidr vpc :
  raises_only not_client_error (create_subnet client cidr vpc).
Proof. raises_cases create_subnet_eq. Qed.

Lemma raises_setup_nat_gateway subnet :
  raises_only not_client_error (setup_nat_gateway client subnet).
Proof. raises_cases setup_nat_gateway_eq. Qed.

Lemma raises_create_route_table vpc subnet :
  raises_only not_client_error (create_route_table client vpc subnet).
Proof. raises_cases create_route_table_eq. Qed.

Lemma raises_create_route retries rt dest gw mode :
  raises_only not_client_error (create_route client retries rt dest gw mode).
Proof.
  intros w e E.
  pose proof (create_route_result client rt dest gw retries mode w) as H.
  rewrite E in H. destruct H as (e0 & ->). discriminate.
Qed.

Lemma raises_input prompt : raises_only not_client_error (input prompt).
Proof.
  intros w e. unfold input. destruct (stdin w); simpl; [|discriminate].
  intros [= <-]. discriminate.
Qed.

Lemma raises_route_loop retries rt gw :
  forall count i,
    raises_only not_client_error (route_loop client retries rt gw count i).
Proof.
  induction count as [|n IH]; intros i; cbn [route_loop].
  - intros w e. discriminate.
  - apply raises_only_bind; [apply raises_input|intros d0].
    apply raises_only_bind;
      [intros w e E; apply while_not_cidr_raises in E; subst; discriminate
      |intros d].
    apply raises_only_bind; [apply raises_create_route|intros ok].
    apply raises_only_bind; [|intros _; apply IH].
    destruct (negb (resp_truthy ok)); intros w e; discriminate.
Qed.

Lemma raises_main retries : raises_only not_client_error (main client retries).
Proof.
  unfold main.
  apply raises_only_bind; [apply raises_create_client|intros _].
  apply raises_only_bind; [apply raises_input|intros vpc].
  apply raises_only_bind;
    [intros w e E; apply while_not_vpc_raises in E; subst; discriminate
    |intros _].
  apply raises_only_bind; [apply raises_input|intros cidr0].
  apply raises_only_bind;
    [intros w e E; apply while_not_cidr_raises in E; subst; discriminate
    |intros cidr].
  apply raises_only_bind; [apply raises_create_igw|intros igw].
  apply raises_only_bind; [apply raises_create_subnet|intros subnet].
  apply raises_only_bind; [apply raises_setup_nat_gateway|intros ng].
  apply raises_only_bind; [apply raises_create_route_table|intros rt].
  apply raises_only_bind; [apply raises_create_route|intros ok].
  destruct (negb (resp_truthy ok)).
  - intros w e [= <-]. discriminate.
  - apply raises_only_bind; [apply raises_input|intros n0].
    apply raises_only_bind;
      [intros w e E; apply while_not_int_raises in E; subst; discriminate
      |intros n].
    apply raises_only_bind; [apply raises_route_loop|intros _].
    intros w e. discriminate.
Qed.

End Raises.

(** X12.  No [ClientError] of the client leaves [main]: each one is either
    turned into a plain [Exception] by the function that made the call,
    or swallowed (NAT gateway), or retried (route).  So whatever [main]
    raises is of another class. *)
Theorem main_raises_no_client_error (client : Client) retries w e :
  snd (main client retries w) = Exn e -> exc_cls e <> ClientError.
Proof. apply raises_main. Qed.

Lemma main_raises_no_client_error_witness :
  exc_cls (Exc PyException
             ("Error returned when creating Route Table: "
                ++ exc_str Stubs.InvalidParam ++ nl)) <> ClientError.
Proof.
  apply (main_raises_no_client_error
           (Stubs.failing (fun c => match c with CreateRouteTable _ => true
                                            | _ => false end)
              Stubs.InvalidParam) 3 (mkWorld Stubs.operator [])).
  reflexivity.
Defined.

(* ================================================================= *)
(** ** The default route is mandatory *)

Lemma count_not_asked_bind {A} (m : M A) (k : A -> M Locals) :
  sat count_not_asked m ->
  (forall a, sat asked_after_default (k a)) ->
  sat asked_after_default (bind m k).
Proof.
  intros Hm Hk w. destruct (Hm w) as (e1 & T1 & N1).
  rewrite bind_run. destruct (m w) as [w1 [a|e]]; cbn [fst snd] in *.
  - destruct (Hk a w1) as (e2 & T2 & Q2).
    exists (e1 ++ e2)%list. rewrite T2, T1, app_assoc. split; [reflexivity|].
    intros loc E. destruct (Q2 loc E) as (pre & kw & x & post & -> & Hx & Hp).
    exists (e1 ++ pre)%list, kw, x, post. rewrite <- app_assoc.
    split; [reflexivity|]. split; [assumption|].
    unfold count_not_asked in N1. now rewrite forallb_app, N1, Hp.
  - exists e1. split; [assumption|]. intros loc. discriminate.
Qed.

Section DefaultRoute.

Variable client : Client.

Ltac quiet_cases eqn :=
  intros w; rewrite eqn; cbv zeta; answers_goal;
  (eexists; split;
   [unfold emit; simpl; rewrite <- ?app_assoc; simpl; reflexivity|]);
  reflexivity.

Lemma not_asked_create_client args :
  sat count_not_asked (create_client client args).
Proof. quiet_cases create_client_eq. Qed.

Lemma not_asked_create_igw vpc : sat count_not_asked (create_igw client vpc).
Proof. quiet_cases create_igw_eq. Qed.

Lemma not_asked_create_subnet cidr vpc :
  sat count_not_asked (create_subnet client cidr vpc).
Proof. quiet_cases create_subnet_eq. Qed.

Lemma not_asked_setup_nat_gateway subnet :
  sat count_not_asked (setup_nat_gateway client subnet).
Proof. quiet_cases setup_nat_gateway_eq. Qed.

Lemma not_asked_create_route_table vpc subnet :
  sat count_not_asked (create_route_table client vpc subnet).
Proof. quiet_cases create_route_table_eq. Qed.

Lemma not_asked_input prompt :
  (prompt =? count_prompt) = false ->
  sat count_not_asked (input prompt).
Proof.
  intros H w. exists [EPrompt prompt]. unfold input, count_not_asked.
  destruct (stdin w); (split; [reflexivity|]); simpl; now rewrite H.
Qed.

Lemma not_asked_while_not_vpc vpc :
  sat count_not_asked (fun w => while_not_vpc vpc (stdin w) (trace w)).
Proof.
  intros w. generalize (trace w). unfold count_not_asked.
  induction (stdin w) as [|l rest IH]; intros tr; simpl;
    destruct (vpc =? ""); simpl;
    try (exists []; now rewrite app_nil_r).
  - eexists. split; reflexivity.
  - destruct (IH (tr ++ [EPrint "Please provide a valid VPC ID."; EPrompt vpc_prompt])%list)
      as (evs & T & N).
    eexists (_ :: _ :: evs). rewrite T, <- app_assoc. split; [reflexivity|].
    simpl. exact N.
Qed.

Lemma not_asked_while_not_cidr x :
  sat count_not_asked
      (fun w => while_not_cidr cidr_invalid cidr_prompt x (stdin w) (trace w)).
Proof.
  intros w. generalize (trace w). revert x. unfold count_not_asked.
  induction (stdin w) as [|l rest IH]; intros x tr; simpl;
    destruct (cidr_re_match x); simpl;
    try (exists []; now rewrite app_nil_r).
  - eexists. split; reflexivity.
  - destruct (IH l (tr ++ [EPrint cidr_invalid; EPrompt cidr_prompt])%list)
      as (evs & T & N).
    eexists (_ :: _ :: evs). rewrite T, <- app_assoc. split; [reflexivity|].
    simpl. exact N.
Qed.

(** [create_route] asks nothing. *)
Lemma create_route_no_prompt rt dest gw :
  forall retries mode w w' r,
    create_route client retries rt dest gw mode w = (w', r) ->
    exists evs, trace w' = (trace w ++ evs)%list
                /\ forallb not_count_prompt evs = true.
Proof.
  induction retries as [|n IH]; intros mode w w' r H;
    rewrite create_route_eq in H;
    (destruct (mode_kw mode) as [kw|];
     [|inversion H; subst; exists []; now rewrite app_nil_r]);
    cbv zeta in H;
    (destruct (client (trace w) (CreateRoute rt dest kw gw)) as [x|e];
     [inversion H; subst; eexists; split; reflexivity|]);
    (destruct (not_found e);
     [|inversion H; subst; eexists; split; reflexivity]).
  - inversion H; subst. eexists. split; reflexivity.
  - apply IH in H. destruct H as (evs & -> & N).
    exists ((ECall (CreateRoute rt dest kw gw) (Raises e) :: retry_events) ++ evs)%list.
    unfold emit. cbn [trace]. rewrite <- app_assoc. split; [reflexivity|].
    rewrite forallb_app, N. reflexivity.
Qed.

(** From the default route on. *)
Lemma asked_after_default_tail retries vpc cidr igw subnet ng rt :
  sat asked_after_default
    (success <- create_route client retries rt "0.0.0.0/0" (Some igw) "igw" ;;
     if negb (resp_truthy success) then
       raise (Exc PyException
         "Could not create IGW route. Please check that IGW exists and is attached.")
     else
       num_routes <- input "How many routes need to be created?" ;;
       num_routes <- (fun w => while_not_int num_routes (stdin w) (trace w)) ;;
       route_loop client retries rt ng (Z.to_nat num_routes) 0 ;;
       ret (mkLocals vpc cidr igw subnet ng rt num_routes)).
Proof.
  intros w.
  match goal with |- context [fst (?m w)] => set (run := m w) end.
  destruct (sat_bind 10 11 11 (fun _ => True) (fun _ : Locals => True)
              (create_route client retries rt "0.0.0.0/0" (Some igw) "igw")
              (fun success =>
                 if negb (resp_truthy success) then
                   raise (Exc PyException
                     "Could not create IGW route. Please check that IGW exists and is attached.")
                 else
                   num_routes <- input "How many routes need to be created?" ;;
                   num_routes <- (fun w => while_not_int num_routes (stdin w) (trace w)) ;;
                   route_loop client retries rt ng (Z.to_nat num_routes) 0 ;;
                   ret (mkLocals vpc cidr igw subnet ng rt num_routes))
              (le_n 11)
              (sat_create_route client rt "0.0.0.0/0" (Some igw) eq_refl
                 retries "igw" 10 ltac:(lia))) with (w := w) as (evs & T & _).
  { intros ok _. destruct (negb (resp_truthy ok)); [apply sat_raise|].
    apply (sat_bind 11 11 11 (fun _ => True)); [lia|apply sat_input|intros n0 _].
    apply (sat_bind 11 11 11 (fun _ => True));
      [lia|apply sat_while_not_int|intros n _].
    apply (sat_bind 11 11 11 (fun _ => True));
      [lia|apply sat_route_loop|intros _ _].
    now apply sat_ret. }
  fold run in T. exists evs. split; [exact T|].
  intros loc E.
  assert (H : run = (fst run, Val loc)) by (rewrite <- E; now destruct run).
  subst run.
  apply bind_val_inv in H. destruct H as (w10 & ok & Hdef & H).
  destruct (resp_truthy ok) eqn:Htrue; [|discriminate H]. cbn [negb] in H.
  apply bind_val_inv in H. destruct H as (w11 & n0 & Hi3 & H).
  apply bind_val_inv in H. destruct H as (w12 & n & Hn & H).
  apply bind_val_inv in H. destruct H as (w13 & [] & Hloop & H).
  inversion H as [[Hw Hl]]. clear H. cbn [l_route_table l_igw].
  pose proof (create_route_result client rt "0.0.0.0/0" (Some igw) retries "igw" w) as R.
  destruct (create_route_no_prompt _ _ _ _ _ _ _ _ Hdef) as (e10 & T10 & N10).
  rewrite Hdef in R. cbn [fst snd] in R. destruct R as (pre & kw & T10').
  rewrite T10 in T10'. apply app_inv_head in T10'. subst e10.
  apply input_val in Hi3. destruct Hi3 as [_ T11].
  apply while_not_int_val in Hn. destruct Hn as (e12 & T12 & _).
  destruct (sat_route_loop client retries rt ng (Z.to_nat n) 0 w12) as (e13 & T13 & _).
  rewrite Hloop in T13. cbn [fst] in T13.
  rewrite Hw, T12, T11, T10 in T13. rewrite T in T13.
  rewrite <- !app_assoc in T13. apply app_inv_head in T13. subst evs.
  exists pre, kw, ok, (e12 ++ e13)%list.
  split; [cbn [app]; reflexivity|]. split; [assumption|].
  rewrite forallb_app in N10. now apply andb_true_iff in N10.
Qed.

(** X13.  When [main] returns, the question for the number of routes was
    asked right after a call for the default route that the client
    answered with a response that counts as true, and not before. *)
Theorem main_asks_count_after_default_route retries w loc :
  snd (main client retries w) = Val loc ->
  exists pre kw x post,
    new_events w (fst (main client retries w)) =
      (pre ++
       [ECall (CreateRoute (l_route_table loc) "0.0.0.0/0" kw (Some (l_igw loc)))
          (Ok x);
        EPrint ("Route created" ++ nl);
        EPrompt count_prompt] ++ post)%list
    /\ resp_truthy x = true
    /\ forallb not_count_prompt pre = true.
Proof.
  assert (S : sat asked_after_default (main client retries)).
  { unfold main.
    apply count_not_asked_bind; [apply not_asked_create_client|intros _].
    apply count_not_asked_bind; [now apply not_asked_input|intros vpc].
    apply count_not_asked_bind; [apply not_asked_while_not_vpc|intros _].
    apply count_not_asked_bind; [now apply not_asked_input|intros cidr0].
    apply count_not_asked_bind; [apply not_asked_while_not_cidr|intros cidr].
    apply count_not_asked_bind; [apply not_asked_create_igw|intros igw].
    apply count_not_asked_bind; [apply not_asked_create_subnet|intros subnet].
    apply count_not_asked_bind; [apply not_asked_setup_nat_gateway|intros ng].
    apply count_not_asked_bind; [apply not_asked_create_route_table|intros rt].
    apply asked_after_default_tail. }
  intros E. destruct (S w) as (evs & T & Q).
  rewrite (new_events_app _ _ _ T). now apply Q.
Qed.

End DefaultRoute.

Lemma main_asks_count_after_default_route_witness :
  exists pre kw x post,
    new_events (mkWorld Stubs.operator [])
      (fst (main Stubs.happy 3 (mkWorld Stubs.operator []))) =
      (pre ++
       [ECall (CreateRoute "rtb-1" "0.0.0.0/0" kw (Some "igw-1")) (Ok x);
        EPrint ("Route created" ++ nl);
        EPrompt count_prompt] ++ post)%list
    /\ resp_truthy x = true
    /\ forallb not_count_prompt pre = true.
Proof.
  apply (main_asks_count_after_default_route Stubs.happy 3
           (mkWorld Stubs.operator [])
           (mkLocals "vpc-123" "10.0.5.0/24" "igw-1" "subnet-1"
              (Some "nat-1") "rtb-1" 2%Z)).
  vm_compute. reflexivity.
Defined.

(* ================================================================= *)
(** ** Attempts and delays of [create_route], for every client *)




